(** * Efficient GeoPandas workshop: the notebooks and what they rely on

    The repository is a teaching workshop: two Jupyter notebooks whose cells
    call geopandas, shapely, pandas, numpy and scipy, each task shown once
    the old way and once the new way.

    The first half of this file holds the definitions.
    - [Py], [GeoPython2023], [Environment]: the code cells of both
      notebooks as Python syntax trees, node names as in Python's [ast]
      module; IPython magics ([%time], [%timeit], [%%time]) are kept as
      wrappers of the statement or cell they prefix.
    - [Notebook], [Exceptions], [Concurrency]: what the cells read and
      write, which functions they author, how an error of a library passes
      through a cell and its [time] magics, and what work a cell could
      leave running.
    - [Trajectories], [Dissolve], [Relabelling]: the cells that build lines
      from points and merge overlapping polygons, as functions over the
      library calls they make.  The geometry engine's own answers (whether
      two polygons overlap, a union) are parameters; the array and graph
      routines the cells combine are written out as their documentation
      describes them.
    - [Dataflow], [Names], [Files], [Timing]: the notebook run in order,
      cell after cell, with the names bound in the kernel and the files on
      disk as its state.

    The second half holds the theorems. *)

From Stdlib Require Import List ZArith Bool Arith Lia.
From Stdlib Require Strings.String.
Import ListNotations String.StringSyntax.
Abbreviation string := String.string.
Set Warnings "-register-all".
Local Open Scope string_scope.

(** * The code cells, as Python syntax trees

    Markdown cells carry no code; a code cell keeps its position in the
    notebook's list of cells, counted from 0, and is preceded by the lines
    of the notebook file that hold its source. *)

Module Py.

Inductive const :=
| CNone
| CBool (b : bool)
| CInt (n : Z)
| CFloat (repr : string)
| CStr (s : string).

Inductive unaryop := USub | UAdd | Not | Invert.

Inductive operator := Add | Sub | Mult | Div | FloorDiv | Mod | Pow | MatMult.

Inductive expr :=
| Name (id : string)
| Constant (value : const)
| Attribute (value : expr) (attr : string)
| Call (func : expr) (args : list expr) (keywords : list (string * expr))
| Lambda (params : list string) (body : expr)
| Subscript (value : expr) (slice : expr)
| Slice (lower upper step : option expr)
| TupleLit (elts : list expr)
| ListLit (elts : list expr)
| DictLit (items : list (expr * expr))
| BinOp (op : operator) (left right : expr)
| UnaryOp (op : unaryop) (operand : expr)
| ListComp (elt target iter : expr).

Inductive stmt :=
| Import (module : string)
| ImportFrom (module : string) (names : list string)
| Assign (target value : expr)
| Expr (value : expr)
| FunctionDef (name : string) (params : list (string * option expr)) (body : list stmt)
| Return (value : expr)
| LineMagic (magic : string) (line : stmt)
| Try (body : list stmt) (handlers : list (option expr * list stmt))
      (orelse finalbody : list stmt)
| With (context : expr) (body : list stmt)
| Raise (exc : option expr)
| ClassDef (name : string) (bases : list expr) (body : list stmt).

(** A code cell: its position among the notebook's cells, the cell magic of
    its first line if any, and its statements. *)
Inductive cell := Cell (position : nat) (cell_magic : option string) (body : list stmt).

Definition position (c : cell) : nat := let (p, _, _) := c in p.
Definition cell_magic (c : cell) : option string := let (_, m, _) := c in m.
Definition body (c : cell) : list stmt := let (_, _, b) := c in b.

End Py.

(** The workshop notebook, [GeoPython2023.ipynb]. *)
Module GeoPython2023.
Import Py.
Local Open Scope Z_scope.

(** GeoPython2023.ipynb, lines 48 to 53. *)
Definition cell_1 : cell :=
  Cell 1 None
    [Import "geopandas";
     Import "numpy";
     Import "pandas";
     Import "shapely";
     ImportFrom "shapely.geometry" ["Point"; "LineString"; "Polygon"]].

(** GeoPython2023.ipynb, line 71. *)
Definition cell_3 : cell :=
  Cell 3 None
    [Expr
       (TupleLit
         [Attribute (Name "geopandas") "__version__"; Attribute (Name "shapely") "__version__"])].

(** GeoPython2023.ipynb, lines 97 to 98. *)
Definition cell_5 : cell :=
  Cell 5 None
    [Assign
       (Name "latitude")
       (Call
         (Attribute (Attribute (Name "numpy") "random") "uniform")
         [UnaryOp USub (Constant (CInt 90)); Constant (CInt 90); Constant (CInt 100000)]
         []);
     Assign
       (Name "longitude")
       (Call
         (Attribute (Attribute (Name "numpy") "random") "uniform")
         [UnaryOp USub (Constant (CInt 180)); Constant (CInt 180); Constant (CInt 100000)]
         [])].

(** GeoPython2023.ipynb, lines 109 to 110. *)
Definition cell_6 : cell :=
  Cell 6 None
    [Assign
       (Name "coordinates_df")
       (Call
         (Attribute (Name "pandas") "DataFrame")
         [DictLit
            [(Constant (CStr "latitude"), Name "latitude");
             (Constant (CStr "longitude"), Name "longitude")]]
         []);
     Expr (Call (Attribute (Name "coordinates_df") "head") [] [])].

(** GeoPython2023.ipynb, lines 130 to 133. *)
Definition cell_8 : cell :=
  Cell 8 None
    [LineMagic
       "time"
       (Assign
         (Name "s")
         (Call
           (Attribute (Name "geopandas") "GeoSeries")
           [Call
              (Name "map")
              [Name "Point"; Call (Name "zip") [Name "longitude"; Name "latitude"] []]
              []]
           [("crs", Constant (CInt 4326))]));
     Expr (Call (Attribute (Name "s") "head") [] [])].

(** GeoPython2023.ipynb, lines 151 to 154. *)
Definition cell_10 : cell :=
  Cell 10 None
    [LineMagic
       "time"
       (Assign
         (Name "s")
         (Call
           (Attribute (Name "geopandas") "GeoSeries")
           [ListComp
              (Call (Name "Point") [Name "coords"] [])
              (Name "coords")
              (Call (Name "zip") [Name "longitude"; Name "latitude"] [])]
           [("crs", Constant (CInt 4326))]));
     Expr (Call (Attribute (Name "s") "head") [] [])].

(** GeoPython2023.ipynb, lines 174 to 177. *)
Definition cell_12 : cell :=
  Cell 12 None
    [LineMagic
       "time"
       (Assign
         (Name "s")
         (Call
           (Attribute (Name "coordinates_df") "apply")
           [Lambda
              ["x"]
              (Call
                (Name "Point")
                [Subscript (Name "x") (Slice None None (Some (UnaryOp USub (Constant (CInt 1)))))]
                [])]
           [("axis", Constant (CInt 1))]));
     Expr (Call (Attribute (Name "s") "head") [] [])].

(** GeoPython2023.ipynb, lines 195 to 196. *)
Definition cell_14 : cell :=
  Cell 14 None
    [Assign
       (Name "s")
       (Call
         (Attribute (Name "geopandas") "GeoSeries")
         [Name "s"]
         [("crs", Constant (CInt 4326))]);
     Expr (Call (Attribute (Name "s") "head") [] [])].

(** GeoPython2023.ipynb, lines 216 to 217. *)
Definition cell_16 : cell :=
  Cell 16 None
    [LineMagic
       "time"
       (Assign
         (Name "s")
         (Call
           (Attribute (Attribute (Name "geopandas") "GeoSeries") "from_xy")
           [Name "longitude"; Name "latitude"]
           [("crs", Constant (CInt 4326))]));
     Expr (Call (Attribute (Name "s") "head") [] [])].

(** GeoPython2023.ipynb, lines 235 to 236. *)
Definition cell_18 : cell :=
  Cell 18 None
    [LineMagic
       "time"
       (Assign
         (Name "ga")
         (Call
           (Attribute (Name "geopandas") "points_from_xy")
           [Attribute (Name "coordinates_df") "longitude";
            Attribute (Name "coordinates_df") "latitude"]
           [("crs", Constant (CInt 4326))]));
     Expr (Name "ga")].

(** GeoPython2023.ipynb, lines 258 to 259. *)
Definition cell_20 : cell :=
  Cell 20 None
    [Assign
       (Name "df")
       (Call (Attribute (Name "pandas") "read_csv") [Constant (CStr "data/sales.csv")] []);
     Expr (Call (Attribute (Name "df") "head") [] [])].

(** GeoPython2023.ipynb, line 270. *)
Definition cell_21 : cell :=
  Cell 21 None
    [Expr (Attribute (Name "df") "dtypes")].

(** GeoPython2023.ipynb, lines 290 to 294. *)
Definition cell_23 : cell :=
  Cell 23 None
    [ImportFrom "shapely" ["wkt"];
     LineMagic
       "time"
       (Assign
         (Name "gdf")
         (Call
           (Attribute (Name "geopandas") "GeoDataFrame")
           [Name "df"]
           [("geometry",
             Call
               (Attribute (Attribute (Name "df") "geometry") "apply")
               [Attribute (Name "wkt") "loads"]
               []);
            ("crs", Constant (CInt 4326))]));
     Expr (Call (Attribute (Name "gdf") "head") [] [])].

(** GeoPython2023.ipynb, lines 314 to 315. *)
Definition cell_25 : cell :=
  Cell 25 None
    [LineMagic
       "time"
       (Assign
         (Name "gdf")
         (Call
           (Attribute (Name "geopandas") "GeoDataFrame")
           [Name "df"]
           [("geometry",
             Call
               (Attribute (Attribute (Name "geopandas") "GeoSeries") "from_wkt")
               [Attribute (Name "df") "geometry"]
               [("crs", Constant (CInt 4326))])]));
     Expr (Call (Attribute (Name "gdf") "head") [] [])].

(** GeoPython2023.ipynb, line 326. *)
Definition cell_26 : cell :=
  Cell 26 None
    [Expr (Attribute (Name "gdf") "dtypes")].

(** GeoPython2023.ipynb, lines 348 to 349. *)
Definition cell_28 : cell :=
  Cell 28 None
    [Assign
       (Name "df")
       (Call (Attribute (Name "pandas") "read_parquet") [Constant (CStr "data/sales.parquet")] []);
     Expr (Call (Attribute (Name "df") "head") [] [])].

(** GeoPython2023.ipynb, lines 369 to 373. *)
Definition cell_30 : cell :=
  Cell 30 None
    [ImportFrom "shapely" ["wkb"];
     LineMagic
       "time"
       (Assign
         (Name "gdf")
         (Call
           (Attribute (Name "geopandas") "GeoDataFrame")
           [Name "df"]
           [("geometry",
             Call
               (Attribute (Attribute (Name "df") "geometry") "apply")
               [Attribute (Name "wkb") "loads"]
               []);
            ("crs", Constant (CInt 4326))]));
     Expr (Call (Attribute (Name "gdf") "head") [] [])].

(** GeoPython2023.ipynb, lines 393 to 394. *)
Definition cell_32 : cell :=
  Cell 32 None
    [LineMagic
       "time"
       (Assign
         (Name "gdf")
         (Call
           (Attribute (Name "geopandas") "GeoDataFrame")
           [Name "df"]
           [("geometry",
             Call
               (Attribute (Attribute (Name "geopandas") "GeoSeries") "from_wkb")
               [Attribute (Name "df") "geometry"]
               [("crs", Constant (CInt 4326))])]));
     Expr (Call (Attribute (Name "gdf") "head") [] [])].

(** GeoPython2023.ipynb, line 405. *)
Definition cell_33 : cell :=
  Cell 33 None
    [Expr (Attribute (Name "gdf") "dtypes")].

(** GeoPython2023.ipynb, lines 427 to 428. *)
Definition cell_35 : cell :=
  Cell 35 None
    [Expr
       (Call
         (Attribute (Attribute (Name "gdf") "geometry") "apply")
         [Attribute (Name "wkb") "dumps"]
         [])].

(** GeoPython2023.ipynb, line 439. *)
Definition cell_36 : cell :=
  Cell 36 None
    [Expr (Call (Attribute (Name "gdf") "to_wkt") [] [])].

(** GeoPython2023.ipynb, line 450. *)
Definition cell_37 : cell :=
  Cell 37 None
    [Expr (Call (Attribute (Name "gdf") "to_wkb") [] [])].

(** GeoPython2023.ipynb, lines 472 to 475. *)
Definition cell_39 : cell :=
  Cell 39 None
    [Assign
       (Name "df")
       (Call
         (Attribute (Name "pandas") "DataFrame")
         [DictLit
            [(Constant (CStr "lat"), Name "latitude");
             (Constant (CStr "lon"), Name "longitude");
             (Constant (CStr "traj_id"),
              Call
                (Attribute (Name "numpy") "repeat")
                [Call (Attribute (Name "numpy") "arange") [Constant (CInt 12500)] [];
                 Constant (CInt 8)]
                [])]]
         []);
     Expr (Name "df")].

(** GeoPython2023.ipynb, lines 495 to 499. *)
Definition cell_41 : cell :=
  Cell 41 (Some "time")
    [Assign
       (Name "grouped")
       (Call
         (Attribute
           (Subscript
             (Call (Attribute (Name "df") "groupby") [ListLit [Constant (CStr "traj_id")]] [])
             (ListLit [Constant (CStr "lon"); Constant (CStr "lat")]))
           "apply")
         [Lambda ["x"] (Call (Name "LineString") [Name "x"] [])]
         []);
     Assign
       (Name "grouped")
       (Call
         (Attribute (Name "geopandas") "GeoDataFrame")
         [Call (Attribute (Name "grouped") "to_frame") [Constant (CStr "geometry")] []]
         [("crs", Constant (CInt 4326))]);
     Expr (Name "grouped")].

(** GeoPython2023.ipynb, lines 517 to 524. *)
Definition cell_43 : cell :=
  Cell 43 (Some "time")
    [Assign
       (Name "geometry")
       (ListComp
         (Call (Name "Point") [Name "xy"] [])
         (Name "xy")
         (Call
           (Name "zip")
           [Subscript (Name "df") (Constant (CStr "lon"));
            Subscript (Name "df") (Constant (CStr "lat"))]
           []));
     Assign
       (Name "gdf")
       (Call
         (Attribute (Name "geopandas") "GeoDataFrame")
         [Call (Attribute (Name "df") "copy") [] []]
         [("geometry", Name "geometry")]);
     Assign
       (Name "grouped")
       (Call
         (Attribute
           (Subscript
             (Call (Attribute (Name "gdf") "groupby") [Constant (CStr "traj_id")] [])
             (Constant (CStr "geometry")))
           "apply")
         [Lambda ["x"] (Call (Name "LineString") [Call (Attribute (Name "x") "tolist") [] []] [])]
         []);
     Assign
       (Name "grouped")
       (Call
         (Attribute (Name "geopandas") "GeoDataFrame")
         [Name "grouped"]
         [("crs", Constant (CInt 4326))]);
     Expr (Name "grouped")].

(** GeoPython2023.ipynb, lines 544 to 548. *)
Definition cell_45 : cell :=
  Cell 45 (Some "time")
    [Assign
       (Name "gdf")
       (Call
         (Attribute (Name "geopandas") "GeoDataFrame")
         []
         [("geometry",
           Call
             (Attribute (Name "shapely") "linestrings")
             [Subscript (Name "df") (ListLit [Constant (CStr "lon"); Constant (CStr "lat")])]
             [("indices", Attribute (Name "df") "traj_id")])]);
     Expr (Name "gdf")].

(** GeoPython2023.ipynb, lines 566 to 567. *)
Definition cell_47 : cell :=
  Cell 47 None
    [Assign
       (Subscript (Name "df") (Constant (CStr "traj_id")))
       (BinOp Mult (Subscript (Name "df") (Constant (CStr "traj_id"))) (Constant (CInt 3)));
     Expr (Name "df")].

(** GeoPython2023.ipynb, lines 585 to 592. *)
Definition cell_49 : cell :=
  Cell 49 (Some "time")
    [Assign
       (Name "gdf")
       (Call
         (Attribute (Name "geopandas") "GeoDataFrame")
         []
         [("geometry",
           Call
             (Attribute (Name "shapely") "linestrings")
             [Subscript (Name "df") (ListLit [Constant (CStr "lon"); Constant (CStr "lat")])]
             [("indices",
               Subscript
                 (Call
                   (Attribute (Name "pandas") "factorize")
                   [Attribute (Name "df") "traj_id"]
                   [])
                 (Constant (CInt 0)))]);
          ("crs", Constant (CInt 4326))]);
     Expr (Name "gdf")].

(** GeoPython2023.ipynb, line 610. *)
Definition cell_51 : cell :=
  Cell 51 None
    [Expr (Call (Attribute (Name "pandas") "factorize") [Attribute (Name "df") "traj_id"] [])].

(** GeoPython2023.ipynb, lines 628 to 635. *)
Definition cell_53 : cell :=
  Cell 53 (Some "time")
    [Assign
       (TupleLit [Name "indices"; Name "index"])
       (Call (Attribute (Name "pandas") "factorize") [Attribute (Name "df") "traj_id"] []);
     Assign
       (Name "gdf")
       (Call
         (Attribute (Name "geopandas") "GeoDataFrame")
         []
         [("geometry",
           Call
             (Attribute (Name "shapely") "linestrings")
             [Subscript (Name "df") (ListLit [Constant (CStr "lon"); Constant (CStr "lat")])]
             [("indices", Name "indices")]);
          ("index", Name "index");
          ("crs", Constant (CInt 4326))]);
     Expr (Name "gdf")].

(** GeoPython2023.ipynb, lines 666 to 667. *)
Definition cell_56 : cell :=
  Cell 56 (Some "time")
    [Assign
       (Name "sales")
       (Call (Attribute (Name "geopandas") "read_file") [Constant (CStr "data/sales.geojson")] [])].

(** GeoPython2023.ipynb, line 687. *)
Definition cell_58 : cell :=
  Cell 58 None
    [LineMagic
       "timeit"
       (Expr
         (Call
           (Attribute (Name "geopandas") "read_file")
           [Constant (CStr "data/sales.geojson")]
           [("engine", Constant (CStr "pyogrio"))]))].

(** GeoPython2023.ipynb, lines 705 to 706. *)
Definition cell_60 : cell :=
  Cell 60 None
    [Expr (Call (Attribute (Name "sales") "to_file") [Constant (CStr "data/sales.gpkg")] []);
     Expr
       (Call
         (Attribute (Name "sales") "to_parquet")
         [Constant (CStr "data/sales_geo.parquet")]
         [])].

(** GeoPython2023.ipynb, line 717. *)
Definition cell_61 : cell :=
  Cell 61 None
    [LineMagic
       "timeit"
       (Expr
         (Call
           (Attribute (Name "geopandas") "read_file")
           [Constant (CStr "data/sales.gpkg")]
           [("engine", Constant (CStr "pyogrio"))]))].

(** GeoPython2023.ipynb, line 728. *)
Definition cell_62 : cell :=
  Cell 62 None
    [LineMagic
       "timeit"
       (Expr
         (Call
           (Attribute (Name "geopandas") "read_file")
           [Constant (CStr "data/sales.gpkg")]
           [("engine", Constant (CStr "pyogrio")); ("use_arrow", Constant (CBool true))]))].

(** GeoPython2023.ipynb, line 739. *)
Definition cell_63 : cell :=
  Cell 63 None
    [LineMagic
       "timeit"
       (Expr
         (Call
           (Attribute (Name "geopandas") "read_parquet")
           [Constant (CStr "data/sales_geo.parquet")]
           []))].

(** GeoPython2023.ipynb, line 763. *)
Definition cell_65 : cell :=
  Cell 65 None
    [Expr (Call (Attribute (Name "gdf") "head") [] [])].

(** GeoPython2023.ipynb, lines 783 to 786. *)
Definition cell_67 : cell :=
  Cell 67 (Some "time")
    [Assign
       (Name "coordinates")
       (Attribute
         (Call
           (Attribute (Name "numpy") "hstack")
           [ListComp
              (Attribute (Attribute (Name "geom") "coords") "xy")
              (Name "geom")
              (Attribute (Name "gdf") "geometry")]
           [])
         "T");
     Expr (Name "coordinates")].

(** GeoPython2023.ipynb, lines 806 to 808. *)
Definition cell_69 : cell :=
  Cell 69 (Some "time")
    [Assign
       (Name "coordinates")
       (Call
         (Attribute (Name "shapely") "get_coordinates")
         [Attribute (Name "gdf") "geometry"]
         []);
     Expr (Name "coordinates")].

(** GeoPython2023.ipynb, lines 826 to 828. *)
Definition cell_71 : cell :=
  Cell 71 (Some "time")
    [Assign
       (TupleLit [Name "coordinates"; Name "index"])
       (Call
         (Attribute (Name "shapely") "get_coordinates")
         [Attribute (Name "gdf") "geometry"]
         [("return_index", Constant (CBool true))]);
     Expr (Name "index")].

(** GeoPython2023.ipynb, lines 848 to 849. *)
Definition cell_73 : cell :=
  Cell 73 (Some "time")
    [Expr
       (Call
         (Attribute (Name "gdf") "get_coordinates")
         []
         [("index_parts", Constant (CBool true))])].

(** GeoPython2023.ipynb, line 869. *)
Definition cell_75 : cell :=
  Cell 75 None
    [Expr (Call (Attribute (Name "gdf") "head") [] [])].

(** GeoPython2023.ipynb, lines 889 to 900. *)
Definition cell_77 : cell :=
  Cell 77 None
    [Import "re";
     FunctionDef
       "mround"
       [("match", None)]
       [Return
          (Call
            (Attribute (Constant (CStr "{:.3f}")) "format")
            [Call (Name "float") [Call (Attribute (Name "match") "group") [] []] []]
            [])];
     Assign
       (Name "simpledec")
       (Call (Attribute (Name "re") "compile") [Constant (CStr "\d*\.\d+")] []);
     LineMagic
       "time"
       (Assign
         (Name "rounded")
         (Call
           (Attribute (Attribute (Name "gdf") "geometry") "apply")
           [Lambda
              ["x"]
              (Call
                (Attribute (Name "wkt") "loads")
                [Call
                   (Attribute (Name "re") "sub")
                   [Name "simpledec"; Name "mround"; Attribute (Name "x") "wkt"]
                   []]
                [])]
           []));
     Expr (Call (Attribute (Name "rounded") "head") [] [])].

(** GeoPython2023.ipynb, lines 916 to 917. *)
Definition cell_79 : cell :=
  Cell 79 None
    [LineMagic
       "time"
       (Assign
         (Name "rounded")
         (ListComp
           (Call
             (Attribute (Name "wkt") "loads")
             [Call
                (Attribute (Name "wkt") "dumps")
                [Name "geom"]
                [("rounding_precision", Constant (CInt 3))]]
             [])
           (Name "geom")
           (Attribute (Name "gdf") "geometry")))].

(** GeoPython2023.ipynb, line 937. *)
Definition cell_81 : cell :=
  Cell 81 None
    [LineMagic
       "time"
       (Expr
         (Call
           (Attribute (Name "shapely") "set_precision")
           [Attribute (Name "gdf") "geometry"; Constant (CFloat "0.001")]
           []))].

(** GeoPython2023.ipynb, line 959. *)
Definition cell_83 : cell :=
  Cell 83 None
    [Expr (Attribute (Name "gdf") "crs")].

(** GeoPython2023.ipynb, line 979. *)
Definition cell_85 : cell :=
  Cell 85 None
    [Expr
       (Call
         (Attribute (Name "gdf") "to_crs")
         [DictLit [(Constant (CStr "init"), Constant (CStr "epsg:3857"))]]
         [])].

(** GeoPython2023.ipynb, lines 1010 to 1016. *)
Definition cell_87 : cell :=
  Cell 87 None
    [Expr (Call (Attribute (Name "gdf") "to_crs") [Constant (CStr "epsg:3857")] []);
     Expr (Call (Attribute (Name "gdf") "to_crs") [Constant (CInt 3857)] []);
     Expr (Call (Attribute (Name "gdf") "to_crs") [] [("epsg", Constant (CInt 3857))]);
     Expr
       (Call
         (Attribute (Name "gdf") "to_crs")
         [TupleLit [Constant (CStr "epsg"); Constant (CStr "4326")]]
         [])].

(** GeoPython2023.ipynb, lines 1038 to 1047. *)
Definition cell_89 : cell :=
  Cell 89 None
    [Assign
       (Name "population_grid")
       (Call
         (Attribute
           (Call
             (Attribute (Name "geopandas") "read_file")
             [Constant
                (CStr
                  "https://kartta.hsy.fi/geoserver/wfs?service=wfs&version=2.0.0&request=GetFeature&typeName=asuminen_ja_maankaytto:Vaestotietoruudukko_2020&srsName=EPSG:4326&bbox=24.6,60.1,25.2,60.4,EPSG:4326")]
             [])
           "set_crs")
         [Constant (CStr "EPSG:4326")]
         []);
     Expr (Call (Attribute (Name "population_grid") "head") [] [])].

(** GeoPython2023.ipynb, lines 1067 to 1110. *)
Definition cell_91 : cell :=
  Cell 91 None
    [Import "folium";
     Assign
       (Subscript (Name "population_grid") (Constant (CStr "id")))
       (Call (Attribute (Attribute (Name "population_grid") "index") "astype") [Name "str"] []);
     Assign
       (Name "interactive_map")
       (Call
         (Attribute (Name "folium") "Map")
         []
         [("location", TupleLit [Constant (CFloat "60.17"); Constant (CFloat "24.94")]);
          ("zoom_start", Constant (CInt 12))]);
     Assign
       (Name "population_grid_layer")
       (Call
         (Attribute (Name "folium") "Choropleth")
         []
         [("geo_data", Name "population_grid");
          ("data", Name "population_grid");
          ("columns", TupleLit [Constant (CStr "id"); Constant (CStr "asukkaita")]);
          ("key_on", Constant (CStr "feature.id"));
          ("bins", Constant (CInt 9));
          ("fill_color", Constant (CStr "YlOrRd"));
          ("line_weight", Constant (CInt 0));
          ("highlight", Constant (CBool true))]);
     Expr (Call (Attribute (Name "population_grid_layer") "add_to") [Name "interactive_map"] []);
     FunctionDef
       "style_function"
       [("feature", None)]
       [Return
          (DictLit
            [(Constant (CStr "color"), Constant (CStr "transparent"));
             (Constant (CStr "fillColor"), Constant (CStr "transparent"))])];
     Assign
       (Name "tooltip")
       (Call
         (Attribute (Attribute (Name "folium") "features") "GeoJsonTooltip")
         []
         [("fields", TupleLit [Constant (CStr "asukkaita")])]);
     Assign
       (Name "tooltip_layer")
       (Call
         (Attribute (Attribute (Name "folium") "features") "GeoJson")
         [Name "population_grid"]
         [("style_function", Name "style_function"); ("tooltip", Name "tooltip")]);
     Expr (Call (Attribute (Name "tooltip_layer") "add_to") [Name "interactive_map"] []);
     Expr (Name "interactive_map")].

(** GeoPython2023.ipynb, lines 1130 to 1132. *)
Definition cell_93 : cell :=
  Cell 93 None
    [Expr
       (Call
         (Attribute (Name "population_grid") "explore")
         [Constant (CStr "asukkaita")]
         [("cmap", Constant (CStr "YlOrRd"));
          ("tooltip", Constant (CStr "asukkaita"));
          ("style_kwds", Call (Name "dict") [] [("stroke", Constant (CBool false))])])].

(** GeoPython2023.ipynb, lines 1152 to 1155. *)
Definition cell_95 : cell :=
  Cell 95 None
    [Assign
       (Name "homes")
       (Call
         (Attribute
           (Call
             (Attribute (Name "geopandas") "read_file")
             [Constant (CStr "data/sales.gpkg")]
             [("engine", Constant (CStr "pyogrio"))])
           "to_crs")
         [Constant (CStr "EPSG:2926")]
         []);
     Assign
       (Name "food")
       (Call
         (Attribute
           (Call
             (Attribute (Name "geopandas") "read_file")
             [Constant (CStr "data/food_establishments.gpkg")]
             [("engine", Constant (CStr "pyogrio"))])
           "to_crs")
         [Constant (CStr "EPSG:2926")]
         [])].

(** GeoPython2023.ipynb, line 1166. *)
Definition cell_96 : cell :=
  Cell 96 None
    [Expr
       (Call
         (Name "print")
         [Call (Name "len") [Name "homes"] []; Call (Name "len") [Name "food"] []]
         [])].

(** GeoPython2023.ipynb, lines 1188 to 1189. *)
Definition cell_98 : cell :=
  Cell 98 (Some "time")
    [Expr
       (Call
         (Attribute
           (Attribute
             (Subscript (Name "homes") (Slice None (Some (Constant (CInt 1000))) None))
             "geometry")
           "apply")
         [Lambda ["geom"] (Call (Attribute (Name "food") "distance") [Name "geom"] [])]
         [])].

(** GeoPython2023.ipynb, lines 1200 to 1204. *)
Definition cell_99 : cell :=
  Cell 99 (Some "time")
    [Expr
       (Call
         (Attribute (Name "shapely") "distance")
         [Subscript
            (Call
              (Attribute (Name "numpy") "asarray")
              [Attribute
                 (Subscript (Name "homes") (Slice None (Some (Constant (CInt 1000))) None))
                 "geometry"]
              [])
            (TupleLit [Slice None None None; Attribute (Name "numpy") "newaxis"]);
          Subscript
            (Call (Attribute (Name "numpy") "asarray") [Attribute (Name "food") "geometry"] [])
            (TupleLit [Attribute (Name "numpy") "newaxis"; Slice None None None])]
         [])].

(** GeoPython2023.ipynb, lines 1225 to 1226. *)
Definition cell_101 : cell :=
  Cell 101 None
    [Assign
       (Name "coords_homes")
       (Call
         (Attribute (Name "shapely") "get_coordinates")
         [Attribute (Name "homes") "geometry"]
         []);
     Assign
       (Name "coords_food")
       (Call
         (Attribute (Name "shapely") "get_coordinates")
         [Attribute (Name "food") "geometry"]
         [])].

(** GeoPython2023.ipynb, line 1237. *)
Definition cell_102 : cell :=
  Cell 102 None
    [ImportFrom "scipy" ["spatial"]].

(** GeoPython2023.ipynb, lines 1248 to 1249. *)
Definition cell_103 : cell :=
  Cell 103 (Some "time")
    [Expr
       (Call
         (Attribute (Name "spatial") "distance_matrix")
         [Subscript (Name "coords_homes") (Slice None (Some (Constant (CInt 1000))) None);
          Name "coords_food"]
         [])].

(** GeoPython2023.ipynb, lines 1285 to 1288. *)
Definition cell_107 : cell :=
  Cell 107 (Some "time")
    [Expr
       (Call
         (Attribute
           (Attribute
             (Subscript (Name "homes") (Slice None (Some (Constant (CInt 1000))) None))
             "geometry")
           "apply")
         [Lambda
            ["geom"]
            (Call
              (Attribute (Call (Attribute (Name "food") "distance") [Name "geom"] []) "min")
              []
              [])]
         [])].

(** GeoPython2023.ipynb, line 1306. *)
Definition cell_109 : cell :=
  Cell 109 None
    [ImportFrom "shapely.ops" ["nearest_points"]].

(** GeoPython2023.ipynb, lines 1317 to 1330. *)
Definition cell_110 : cell :=
  Cell 110 (Some "time")
    [Assign (Name "points") (Attribute (Attribute (Name "food") "geometry") "unary_union");
     FunctionDef
       "nearest_dist"
       [("point", None); ("other", Some (Name "points"))]
       [Assign
          (Name "nearest")
          (Subscript
            (Call (Name "nearest_points") [Name "point"; Name "other"] [])
            (Constant (CInt 1)));
        Return (Call (Attribute (Name "point") "distance") [Name "nearest"] [])];
     Expr
       (Call
         (Attribute
           (Attribute
             (Subscript (Name "homes") (Slice None (Some (Constant (CInt 1000))) None))
             "geometry")
           "apply")
         [Lambda ["geom"] (Call (Name "nearest_dist") [Name "geom"] [])]
         [])].

(** GeoPython2023.ipynb, lines 1350 to 1352. *)
Definition cell_112 : cell :=
  Cell 112 (Some "time")
    [Expr
       (Call
         (Attribute (Name "homes") "sjoin_nearest")
         [Subscript (Name "food") (ListLit [Constant (CStr "geometry")])]
         [("how", Constant (CStr "left")); ("distance_col", Constant (CStr "distance"))])].

(** GeoPython2023.ipynb, lines 1370 to 1375. *)
Definition cell_114 : cell :=
  Cell 114 (Some "time")
    [Assign
       (Name "tree")
       (Call (Attribute (Name "shapely") "STRtree") [Attribute (Name "food") "geometry"] []);
     Assign
       (TupleLit [Name "indices"; Name "distances"])
       (Call
         (Attribute (Name "tree") "query_nearest")
         [Attribute (Name "homes") "geometry"]
         [("all_matches", Constant (CBool false)); ("return_distance", Constant (CBool true))]);
     Expr (Name "distances")].

(** GeoPython2023.ipynb, line 1402. *)
Definition cell_117 : cell :=
  Cell 117 None
    [Assign
       (Name "tree")
       (Call (Attribute (Name "shapely") "STRtree") [Attribute (Name "food") "geometry"] [])].

(** GeoPython2023.ipynb, lines 1413 to 1418. *)
Definition cell_118 : cell :=
  Cell 118 (Some "time")
    [Assign
       (TupleLit [Name "idx1"; Name "idx2"])
       (Call
         (Attribute (Name "tree") "query")
         [Attribute (Name "homes") "geometry"]
         [("predicate", Constant (CStr "dwithin")); ("distance", Constant (CInt 5000))]);
     Assign
       (Name "distances")
       (Call
         (Attribute (Name "shapely") "distance")
         [Subscript
            (Call (Attribute (Name "numpy") "asarray") [Attribute (Name "homes") "geometry"] [])
            (Name "idx1");
          Subscript
            (Call (Attribute (Name "numpy") "asarray") [Attribute (Name "food") "geometry"] [])
            (Name "idx2")]
         []);
     Expr (Name "distances")].

(** GeoPython2023.ipynb, line 1429. *)
Definition cell_119 : cell :=
  Cell 119 None
    [Expr (Call (Name "len") [Name "distances"] [])].

(** GeoPython2023.ipynb, lines 1449 to 1457. *)
Definition cell_121 : cell :=
  Cell 121 None
    [Assign
       (Name "s")
       (Call
         (Attribute (Name "geopandas") "GeoDataFrame")
         []
         [("geometry",
           ListLit
             [Call
                (Name "Polygon")
                [ListLit
                   [TupleLit [Constant (CInt 0); Constant (CInt 0)];
                    TupleLit [Constant (CInt 0); Constant (CInt 2)];
                    TupleLit [Constant (CInt 2); Constant (CInt 2)];
                    TupleLit [Constant (CInt 2); Constant (CInt 0)]]]
                [];
              Call
                (Name "Polygon")
                [ListLit
                   [TupleLit [Constant (CInt 0); Constant (CInt 1)];
                    TupleLit [Constant (CInt 0); Constant (CInt 3)];
                    TupleLit [Constant (CInt 2); Constant (CInt 3)];
                    TupleLit [Constant (CInt 2); Constant (CInt 1)]]]
                [];
              Call
                (Name "Polygon")
                [ListLit
                   [TupleLit [Constant (CInt 1); Constant (CInt 0)];
                    TupleLit [Constant (CInt 1); Constant (CInt 2)];
                    TupleLit [Constant (CInt 3); Constant (CInt 2)];
                    TupleLit [Constant (CInt 3); Constant (CInt 0)]]]
                [];
              Call
                (Name "Polygon")
                [ListLit
                   [TupleLit [Constant (CInt 4); Constant (CInt 4)];
                    TupleLit [Constant (CInt 4); Constant (CInt 6)];
                    TupleLit [Constant (CInt 6); Constant (CInt 6)];
                    TupleLit [Constant (CInt 6); Constant (CInt 4)]]]
                []])]);
     Expr
       (Call
         (Attribute (Name "s") "plot")
         []
         [("cmap", Constant (CStr "tab10")); ("alpha", Constant (CFloat "0.5"))])].

(** GeoPython2023.ipynb, line 1477. *)
Definition cell_123 : cell :=
  Cell 123 None
    [ImportFrom "scipy.sparse.csgraph" ["connected_components"]].

(** GeoPython2023.ipynb, lines 1488 to 1491. *)
Definition cell_124 : cell :=
  Cell 124 (Some "time")
    [Assign
       (Name "overlap_matrix")
       (Call
         (Attribute
           (Attribute
             (Call
               (Attribute (Attribute (Name "s") "geometry") "apply")
               [Lambda ["x"] (Call (Attribute (Name "s") "overlaps") [Name "x"] [])]
               [])
             "values")
           "astype")
         [Name "bool"]
         []);
     Assign
       (TupleLit [Name "n"; Name "ids"])
       (Call (Name "connected_components") [Name "overlap_matrix"] [])].

(** GeoPython2023.ipynb, line 1502. *)
Definition cell_125 : cell :=
  Cell 125 None
    [Expr
       (Call
         (Attribute (Call (Attribute (Name "s") "dissolve") [Name "ids"] []) "plot")
         []
         [("cmap", Constant (CStr "tab10")); ("alpha", Constant (CFloat "0.5"))])].

(** GeoPython2023.ipynb, line 1520. *)
Definition cell_127 : cell :=
  Cell 127 None
    [Expr (Name "overlap_matrix")].

(** GeoPython2023.ipynb, line 1542. *)
Definition cell_129 : cell :=
  Cell 129 None
    [ImportFrom "scipy.sparse" ["coo_array"]].

(** GeoPython2023.ipynb, lines 1553 to 1563. *)
Definition cell_130 : cell :=
  Cell 130 (Some "time")
    [Assign
       (TupleLit [Name "right_index"; Name "left_index"])
       (Call
         (Attribute (Attribute (Name "s") "sindex") "query_bulk")
         [Attribute (Name "s") "geometry"]
         [("predicate", Constant (CStr "overlaps"))]);
     Assign
       (Name "connectivity")
       (Call
         (Name "coo_array")
         [TupleLit
            [Call
               (Attribute (Name "numpy") "ones")
               [Attribute (Name "right_index") "shape"]
               [("dtype", Name "bool")];
             TupleLit [Name "right_index"; Name "left_index"]]]
         [("shape",
           TupleLit
             [Subscript (Attribute (Name "s") "shape") (Constant (CInt 0));
              Subscript (Attribute (Name "s") "shape") (Constant (CInt 0))]);
          ("dtype", Name "bool")]);
     Assign
       (TupleLit [Name "n"; Name "ids"])
       (Call (Name "connected_components") [Name "connectivity"] [])].

(** GeoPython2023.ipynb, line 1574. *)
Definition cell_131 : cell :=
  Cell 131 None
    [Expr
       (Call
         (Attribute (Call (Attribute (Name "s") "dissolve") [Name "ids"] []) "plot")
         []
         [("cmap", Constant (CStr "tab10")); ("alpha", Constant (CFloat "0.5"))])].

(** GeoPython2023.ipynb, line 1592. *)
Definition cell_133 : cell :=
  Cell 133 None
    [Expr (Call (Attribute (Name "connectivity") "todense") [] [])].

(** GeoPython2023.ipynb, lines 1610 to 1612. *)
Definition cell_135 : cell :=
  Cell 135 None
    [Assign
       (Name "dense")
       (Call
         (Attribute (Name "numpy") "zeros")
         []
         [("shape", TupleLit [Call (Name "len") [Name "s"] []; Call (Name "len") [Name "s"] []]);
          ("dtype", Name "bool")]);
     Assign
       (Subscript (Name "dense") (TupleLit [Name "left_index"; Name "right_index"]))
       (Constant (CBool true));
     Expr (Name "dense")].

(** GeoPython2023.ipynb, line 1630. *)
Definition cell_137 : cell :=
  Cell 137 None
    [Import "libpysal"].

(** GeoPython2023.ipynb, line 1641. *)
Definition cell_138 : cell :=
  Cell 138 None
    [Assign
       (Name "connectivity")
       (Call
         (Attribute (Attribute (Name "libpysal") "weights") "fuzzy_contiguity")
         [Name "s"]
         [("predicate", Constant (CStr "overlaps"))])].

(** GeoPython2023.ipynb, line 1652. *)
Definition cell_139 : cell :=
  Cell 139 None
    [Expr
       (Call
         (Attribute
           (Call
             (Attribute (Name "s") "dissolve")
             [Attribute (Name "connectivity") "component_labels"]
             [])
           "plot")
         []
         [("cmap", Constant (CStr "tab10")); ("alpha", Constant (CFloat "0.5"))])].

(** GeoPython2023.ipynb, line 1668. *)
Definition cell_141 : cell :=
  Cell 141 None
    [Assign
       (Name "connectivity")
       (Call
         (Attribute (Attribute (Attribute (Name "libpysal") "weights") "Queen") "from_dataframe")
         [Name "s"]
         [])].

Definition notebook : list cell :=
  [cell_1; cell_3; cell_5; cell_6; cell_8; cell_10; cell_12; cell_14; cell_16; 
   cell_18; cell_20; cell_21; cell_23; cell_25; cell_26; cell_28; cell_30; 
   cell_32; cell_33; cell_35; cell_36; cell_37; cell_39; cell_41; cell_43; 
   cell_45; cell_47; cell_49; cell_51; cell_53; cell_56; cell_58; cell_60; 
   cell_61; cell_62; cell_63; cell_65; cell_67; cell_69; cell_71; cell_73; 
   cell_75; cell_77; cell_79; cell_81; cell_83; cell_85; cell_87; cell_89; 
   cell_91; cell_93; cell_95; cell_96; cell_98; cell_99; cell_101; cell_102; 
   cell_103; cell_107; cell_109; cell_110; cell_112; cell_114; cell_117; cell_118; 
   cell_119; cell_121; cell_123; cell_124; cell_125; cell_127; cell_129; cell_130; 
   cell_131; cell_133; cell_135; cell_137; cell_138; cell_139; cell_141].

End GeoPython2023.

(** The second notebook: it imports geopandas and prints the versions of
    the installed libraries. *)
Module Environment.
Import Py.
Local Open Scope Z_scope.

Definition cell_1 : cell :=
  Cell 1 None
    [Import "geopandas"].

Definition cell_2 : cell :=
  Cell 2 None
    [Expr (Call (Attribute (Name "geopandas") "show_versions") [] [])].

Definition cell_3 : cell :=
  Cell 3 None
    [].

Definition notebook : list cell :=
  [cell_1; cell_2; cell_3].

End Environment.

(** * Reading the syntax trees *)

Module Notebook.
Import Py.
Local Open Scope list_scope.

(** Both notebooks of the repository, cell by cell. *)
Definition notebooks : list (string * list cell) :=
  [("GeoPython2023.ipynb", GeoPython2023.notebook);
   ("environment check", Environment.notebook)].

Definition cells : list cell := flat_map snd notebooks.

Definition mem (x : string) (l : list string) : bool := existsb (String.eqb x) l.

(** ** Expression nodes

    [nodes deep e] lists the nodes of [e], operands before the operation
    that uses them, in the order Python evaluates them.  The body of a
    lambda is not evaluated where the lambda is written; [deep] says whether
    the traversal enters it all the same. *)
Fixpoint nodes (deep : bool) (e : expr) : list expr :=
  let opt o := match o with Some x => nodes deep x | None => [] end in
  match e with
  | Name _ | Constant _ => [e]
  | Attribute v _ => nodes deep v ++ [e]
  | Call f args kws =>
      nodes deep f ++ flat_map (nodes deep) args
        ++ flat_map (fun '(_, v) => nodes deep v) kws ++ [e]
  | Lambda _ b => (if deep then nodes deep b else []) ++ [e]
  | Subscript v s => nodes deep v ++ nodes deep s ++ [e]
  | Slice lo hi st => opt lo ++ opt hi ++ opt st ++ [e]
  | TupleLit es | ListLit es => flat_map (nodes deep) es ++ [e]
  | DictLit kvs => flat_map (fun '(k, v) => nodes deep k ++ nodes deep v) kvs ++ [e]
  | BinOp _ l r => nodes deep l ++ nodes deep r ++ [e]
  | UnaryOp _ x => nodes deep x ++ [e]
  | ListComp elt target iter => nodes deep iter ++ nodes deep elt ++ [e]
  end.

Definition default_exprs (params : list (string * option expr)) : list expr :=
  flat_map (fun '(_, d) => match d with Some e => [e] | None => [] end) params.

(** The expressions written directly in a statement, in evaluation order;
    those of nested statements belong to the nested statements. *)
Definition own_exprs (s : stmt) : list expr :=
  match s with
  | Import _ | ImportFrom _ _ | LineMagic _ _ => []
  | Assign t v => [v; t]
  | Expr v | Return v => [v]
  | FunctionDef _ params _ => default_exprs params
  | Try _ hs _ _ => flat_map (fun '(ty, _) => match ty with Some t => [t] | None => [] end) hs
  | With c _ => [c]
  | Raise e => match e with Some x => [x] | None => [] end
  | ClassDef _ bases _ => bases
  end.

(** Every statement of a statement, itself included, nested bodies entered. *)
Fixpoint statements (s : stmt) : list stmt :=
  let fix block (ss : list stmt) : list stmt :=
    match ss with [] => [] | s :: r => statements s ++ block r end in
  let fix handler_blocks (hs : list (option expr * list stmt)) : list stmt :=
    match hs with [] => [] | (_, h) :: r => block h ++ handler_blocks r end in
  s :: match s with
       | FunctionDef _ _ b | With _ b | ClassDef _ _ b => block b
       | LineMagic _ s => statements s
       | Try b hs o f => block b ++ handler_blocks hs ++ block o ++ block f
       | _ => []
       end.

Definition cell_statements (c : cell) : list stmt := flat_map statements (body c).

(** Every expression node written in a cell, function and lambda bodies
    included. *)
Definition cell_nodes (c : cell) : list expr :=
  flat_map (nodes true) (flat_map own_exprs (cell_statements c)).

(** ** Functions the notebook authors *)

Record fn := { fn_name : option string; fn_params : list string; fn_body : list stmt }.

Definition def_of (s : stmt) : list fn :=
  match s with
  | FunctionDef n params b =>
      [{| fn_name := Some n; fn_params := map fst params; fn_body := b |}]
  | _ => []
  end.

Definition lambda_of (e : expr) : list fn :=
  match e with
  | Lambda params b => [{| fn_name := None; fn_params := params; fn_body := [Return b] |}]
  | _ => []
  end.

Definition authored (c : cell) : list fn :=
  flat_map def_of (cell_statements c) ++ flat_map lambda_of (cell_nodes c).

Definition all_authored : list fn := flat_map authored cells.

(** The names of the functions the notebooks define with [def]. *)
Definition own_functions : list string :=
  flat_map (fun f => match fn_name f with Some n => [n] | None => [] end) all_authored.

(** A dotted name whose root is not one of the notebook's own functions:
    [Point], [wkt.loads], [food.distance]. *)
Fixpoint external_ref (e : expr) : bool :=
  match e with
  | Name x => negb (mem x own_functions)
  | Attribute v _ => external_ref v
  | _ => false
  end.

Definition is_param (params : list string) (e : expr) : bool :=
  match e with Name x => mem x params | _ => false end.

(** [f] only forwards its arguments to one external call:
    [return callee(p1, ..., pn)] with every [pi] a parameter of [f]. *)
Definition forwards_only (f : fn) : bool :=
  match fn_body f with
  | [Return (Call callee args kws)] =>
      external_ref callee
      && forallb (is_param (fn_params f)) args
      && forallb (fun '(_, v) => is_param (fn_params f) v) kws
  | _ => false
  end.

(** An expression that only composes: names, literals, attribute access,
    subscripts and calls.  No arithmetic, comprehension or nested lambda. *)
Fixpoint composes_only (e : expr) : bool :=
  let opt o := match o with Some x => composes_only x | None => true end in
  match e with
  | Name _ | Constant _ => true
  | Attribute v _ => composes_only v
  | Call f args kws =>
      composes_only f && forallb composes_only args
      && forallb (fun '(_, v) => composes_only v) kws
  | Subscript v s => composes_only v && composes_only s
  | Slice lo hi st => opt lo && opt hi && opt st
  | TupleLit es | ListLit es => forallb composes_only es
  | DictLit kvs => forallb (fun '(k, v) => composes_only k && composes_only v) kvs
  | UnaryOp USub (Constant (CInt _ | CFloat _)) => true
  | Lambda _ _ | BinOp _ _ _ | UnaryOp _ _ | ListComp _ _ _ => false
  end.

(** A body that is a sequence of plain assignments and returns. *)
Definition straight_line (f : fn) : bool :=
  forallb (fun s => match s with
                    | Assign (Name _) v | Return v => composes_only v
                    | _ => false
                    end) (fn_body f).

(** The calls made inside [f] whose callee is one of the notebook's own
    functions. *)
Definition own_calls (f : fn) : list expr :=
  filter (fun e => match e with Call (Name x) _ _ => mem x own_functions | _ => false end)
         (flat_map (nodes true) (flat_map own_exprs (flat_map statements (fn_body f)))).

(** ** Files and remote resources *)

Inductive io_event := Reads (resource : string) | Writes (resource : string).

Definition readers : list string :=
  ["read_csv"; "read_parquet"; "read_file"; "read_feather"; "read_json"; "read_excel";
   "read_table"; "read_pickle"; "read_postgis"; "read_sql"; "open"; "load"].

Definition writers : list string :=
  ["to_file"; "to_parquet"; "to_feather"; "to_csv"; "to_json"; "to_excel"; "to_pickle";
   "to_postgis"; "to_sql"; "save"; "savefig"; "dump"].

(** A call of a reader or writer of pandas or geopandas on a literal path. *)
Definition io_of (e : expr) : list io_event :=
  match e with
  | Call (Attribute _ m) (Constant (CStr p) :: _) _ =>
      if mem m readers then [Reads p] else if mem m writers then [Writes p] else []
  | _ => []
  end.

Definition cell_io (c : cell) : list io_event := flat_map io_of (cell_nodes c).

(** Every read and write of the notebooks, with the position of its cell. *)
Definition all_io : list (nat * io_event) :=
  flat_map (fun c => map (pair (position c)) (cell_io c)) cells.

Definition resource (ev : io_event) : string :=
  match ev with Reads p | Writes p => p end.

(** The string literals of a cell, and those that name a file or a remote
    address: the ones with a slash. *)
Definition literals (c : cell) : list string :=
  flat_map (fun e => match e with Constant (CStr s) => [s] | _ => [] end) (cell_nodes c).

Definition names_a_resource (s : string) : bool :=
  match String.index 0 "/" s with Some _ => true | None => false end.

(** The sample data files the specification lists, as the notebook names
    them (they live in [data/]). *)
Definition sample_data : list string :=
  ["data/sales.csv"; "data/sales.parquet"; "data/sales.geojson"; "data/sales.gpkg";
   "data/food_establishments.gpkg"].

Definition reads_sample (ev : io_event) : bool :=
  match ev with Reads p => mem p sample_data | Writes _ => false end.

Definition is_write (ev : io_event) : bool :=
  match ev with Writes _ => true | Reads _ => false end.

End Notebook.
(** * Exceptions in a cell

    Library code runs wherever a cell imports a module, calls, subscripts,
    reads an attribute or applies an operator: each of these is a site at
    which the wrapped library may raise.  Which sites fail, and with what,
    is left to an oracle.  The body of a function or lambda runs when a
    library calls it back, so what is raised there surfaces at the site of
    that call.

    IPython's [time] magic runs its code inside a [try] with a bare
    [except]: when the code raises, the magic prints the traceback of the
    error and returns.  So an error under [%time] leaves the line as a
    printed traceback and the cell goes on with its next statement; an
    error under [%%time] ends the code of the cell, is printed, and the
    cell finishes.  The [timeit] magic has no such handler: what its
    statement raises passes through it. *)

Module Exceptions.
Import Py Notebook.
Local Open Scope list_scope.

Inductive site := AtImport (module : string) | AtExpr (e : expr).

Inductive outcome (E : Type) := Done | Raised (e : E).
Arguments Done {E}.
Arguments Raised {E} e.

(** What the session gets from running code: the tracebacks a [time] magic
    printed on the way, and how the code ended. *)
Record shown (E : Type) := Shown { printed : list E; ended : outcome E }.
Arguments Shown {E} printed ended.
Arguments printed {E} s.
Arguments ended {E} s.

(** Every error the session is shown, in order. *)
Definition session_sees {E : Type} (r : shown E) : list E :=
  printed r ++ match ended r with Raised x => [x] | Done => [] end.

(** The first error the session is shown, if it is shown one. *)
Definition first_shown {E : Type} (r : shown E) : outcome E :=
  match printed r with
  | x :: _ => Raised x
  | [] => ended r
  end.

Definition is_time (magic : string) : bool := String.eqb magic "time".

Section Run.

Variable E : Type.
(** The error a site raises, if it raises. *)
Variable fails : site -> option E.
(** What a context manager's [__exit__] makes of an error of its block. *)
Variable on_exit : expr -> E -> outcome E.
(** The exception a [raise] statement raises. *)
Variable raised_by : option expr -> E.

Fixpoint first_failure (ss : list site) : outcome E :=
  match ss with
  | [] => Done
  | s :: r => match fails s with Some x => Raised x | None => first_failure r end
  end.

Definition expr_sites (e : expr) : list site := map AtExpr (nodes false e).

Definition eval (e : expr) : shown E := Shown [] (first_failure (expr_sites e)).

Definition andthen (a b : shown E) : shown E :=
  match ended a with
  | Done => Shown (printed a ++ printed b) (ended b)
  | Raised x => a
  end.

(** The [except:] of the [time] magic: [self.shell.showtraceback()], then
    [return]. *)
Definition caught (a : shown E) : shown E :=
  match ended a with
  | Done => a
  | Raised x => Shown (printed a ++ [x]) Done
  end.

Fixpoint exec (s : stmt) : shown E :=
  let fix block (ss : list stmt) : shown E :=
    match ss with [] => Shown [] Done | s :: r => andthen (exec s) (block r) end in
  match s with
  | Import m | ImportFrom m _ => Shown [] (first_failure [AtImport m])
  | Assign t v => andthen (eval v) (eval t)
  | Expr v | Return v => eval v
  | FunctionDef _ params _ =>
      Shown [] (first_failure (flat_map expr_sites (default_exprs params)))
  | LineMagic magic s => if is_time magic then caught (exec s) else exec s
  | Try b hs o f =>
      let tried := block b in
      let guarded :=
        match ended tried with
        | Done => andthen tried (block o)
        | Raised x =>
            match hs with
            | [] => tried
            | (_, h) :: _ => andthen (Shown (printed tried) Done) (block h)
            end
        end in
      let final := block f in
      Shown (printed guarded ++ printed final)
            (match ended final with Done => ended guarded | Raised y => Raised y end)
  | With c b =>
      andthen (eval c)
              (let inside := block b in
               match ended inside with
               | Done => inside
               | Raised x => Shown (printed inside) (on_exit c x)
               end)
  | Raise e =>
      andthen (match e with Some x => eval x | None => Shown [] Done end)
              (Shown [] (Raised (raised_by e)))
  | ClassDef _ bases _ => Shown [] (first_failure (flat_map expr_sites bases))
  end.

Fixpoint exec_block (ss : list stmt) : shown E :=
  match ss with [] => Shown [] Done | s :: r => andthen (exec s) (exec_block r) end.

(** A cell under [%%time] hands its whole code to the magic. *)
Definition run_cell (c : cell) : shown E :=
  match cell_magic c with
  | Some magic => if is_time magic then caught (exec_block (body c)) else exec_block (body c)
  | None => exec_block (body c)
  end.

End Run.

Arguments first_failure {E} fails ss.
Arguments eval {E} fails e.
Arguments andthen {E} a b.
Arguments caught {E} a.
Arguments exec {E} fails on_exit raised_by s.
Arguments exec_block {E} fails on_exit raised_by ss.
Arguments run_cell {E} fails on_exit raised_by c.

(** The sites a statement without handlers passes, in order. *)
Fixpoint stmt_sites (s : stmt) : list site :=
  match s with
  | Import m | ImportFrom m _ => [AtImport m]
  | LineMagic _ s => stmt_sites s
  | _ => flat_map expr_sites (own_exprs s)
  end.

Definition cell_sites (c : cell) : list site := flat_map stmt_sites (body c).

(** Statements that catch, replace, wrap or suppress an exception, or raise
    one of the notebook's own. *)
Definition handles (s : stmt) : bool :=
  match s with
  | Try _ _ _ _ | With _ _ | Raise _ => true
  | _ => false
  end.

(** A statement that is no handler, nor a magic line over one. *)
Fixpoint plain (s : stmt) : bool :=
  match s with
  | LineMagic _ s => plain s
  | _ => negb (handles s)
  end.

Definition is_class (s : stmt) : bool :=
  match s with ClassDef _ _ _ => true | _ => false end.

(** A line under [%time]. *)
Fixpoint timed (s : stmt) : bool :=
  match s with
  | LineMagic magic s => is_time magic || timed s
  | _ => false
  end.

(** A cell under [%%time]. *)
Definition cell_timed (c : cell) : bool :=
  match cell_magic c with Some magic => is_time magic | None => false end.

(** A cell with a [time] magic, on the cell or on one of its lines. *)
Definition under_time (c : cell) : bool := cell_timed c || existsb timed (body c).

(** The sites of the statements that are not under [%time]. *)
Definition untimed_sites (c : cell) : list site :=
  flat_map stmt_sites (filter (fun s => negb (timed s)) (body c)).

(** An oracle under which the calls of one method fail with one error. *)
Definition failing_call (method error : string) (s : site) : option string :=
  match s with
  | AtExpr (Call (Attribute _ m) _ _) =>
      if String.eqb m method then Some error else None
  | _ => None
  end.

(** What a statement without handlers shows: the error of its first failing
    site, printed and passed over under [%time]. *)
Definition line {E : Type} (fails : site -> option E) (s : stmt) : shown E :=
  let r := Shown [] (first_failure fails (stmt_sites s)) in
  if timed s then caught r else r.

Fixpoint lines {E : Type} (fails : site -> option E) (ss : list stmt) : shown E :=
  match ss with
  | [] => Shown [] Done
  | s :: r => andthen (line fails s) (lines fails r)
  end.

End Exceptions.

(** * Threads, processes and tasks

    The kernel runs the cells one at a time in its one thread, each
    statement to its end: a call returns when the library has done its
    work.  What can still be running when the next cell starts is work a
    cell has started and left behind: a thread, a process, an asynchronous
    task, or code a magic runs in the background or in a shell.  Python's
    [async] and [await] have no node in [Py]: no cell uses them. *)

Module Concurrency.
Import Py Notebook.
Local Open Scope list_scope.

(** The package of a dotted module name: [scipy] for [scipy.sparse]. *)
Definition root_module (m : string) : string :=
  match String.index 0 "." m with
  | Some k => String.substring 0 k m
  | None => m
  end.

Definition imported (s : stmt) : list string :=
  match s with
  | Import m | ImportFrom m _ => [m]
  | _ => []
  end.

(** The modules a cell imports. *)
Definition imports (c : cell) : list string := flat_map imported (cell_statements c).

(** The magics of a cell: the one on the cell and those on its lines. *)
Definition magics (c : cell) : list string :=
  match cell_magic c with Some m => [m] | None => [] end
  ++ flat_map (fun s => match s with LineMagic m _ => [m] | _ => [] end)
              (cell_statements c).

(** The packages the notebooks import. *)
Definition libraries : list string :=
  ["geopandas"; "numpy"; "pandas"; "shapely"; "re"; "folium"; "scipy"; "libpysal"].

(** Modules through which Python code starts threads, processes or tasks,
    or reaches the shell. *)
Definition concurrency_modules : list string :=
  ["threading"; "_thread"; "multiprocessing"; "concurrent"; "subprocess"; "asyncio";
   "os"; "sys"; "signal"; "sched"; "socket"; "selectors"; "queue"; "atexit";
   "importlib"; "builtins"; "IPython"; "joblib"; "dask"; "ray"; "trio"; "anyio";
   "pexpect"; "ipyparallel"].

(** Names through which work is started, or through which code gets hold of
    a module without an [import] statement. *)
Definition spawners : list string :=
  ["Thread"; "Timer"; "Process"; "Pool"; "ThreadPool"; "ThreadPoolExecutor";
   "ProcessPoolExecutor"; "Popen"; "system"; "popen"; "fork"; "forkpty"; "spawn";
   "posix_spawn"; "execv"; "startfile"; "check_call"; "check_output"; "getoutput";
   "create_task"; "ensure_future"; "gather"; "run_in_executor";
   "run_coroutine_threadsafe"; "to_thread"; "start_new_thread"; "submit";
   "apply_async"; "map_async"; "Parallel"; "delayed"; "run_until_complete";
   "create_subprocess_exec"; "create_subprocess_shell"; "get_ipython";
   "run_line_magic"; "run_cell_magic"; "__import__"; "import_module"; "exec"; "eval"].

(** The magics that run their code in the kernel's thread and return when
    it has run. *)
Definition synchronous_magics : list string := ["time"; "timeit"].

Inductive work :=
| StartedBy (e : expr)
| UnderMagic (magic : string)
| ThroughModule (module : string).

Definition starts (e : expr) : list work :=
  match e with
  | Name x => if mem x spawners || mem x concurrency_modules then [StartedBy e] else []
  | Attribute _ a => if mem a spawners then [StartedBy e] else []
  | _ => []
  end.

(** The work a cell may leave running when it returns. *)
Definition started (c : cell) : list work :=
  flat_map (fun m => if mem (root_module m) concurrency_modules
                     then [ThroughModule m] else []) (imports c)
  ++ flat_map (fun m => if mem m synchronous_magics then [] else [UnderMagic m])
              (magics c)
  ++ flat_map starts (cell_nodes c).

(** Running the cells in order: what each cell finds still running, left
    by the cells before it. *)
Fixpoint run_cells (pending : list (nat * work)) (cs : list cell)
  : list (nat * list (nat * work)) :=
  match cs with
  | [] => []
  | c :: r =>
      (position c, pending)
        :: run_cells (pending ++ map (pair (position c)) (started c)) r
  end.

End Concurrency.


(** * Rows and their positions *)

Module Arrays.

(** The rows of a column with their positions, counted from [a]. *)
Definition indexed_from {A} (a : nat) (l : list A) : list (nat * A) :=
  combine (seq a (length l)) l.

Definition indexed {A} (l : list A) : list (nat * A) := indexed_from 0 l.

(** The keys of a pandas group-by: ascending and without repeats. *)
Fixpoint insert_key (k : Z) (ks : list Z) : list Z :=
  match ks with
  | [] => [k]
  | h :: t =>
      if (k <? h)%Z then k :: ks else if (k =? h)%Z then ks else h :: insert_key k t
  end.

Definition group_keys (ids : list Z) : list Z := fold_right insert_key [] ids.

End Arrays.

(** * Lines from points (cells 39 to 53)

    [pandas.factorize] numbers the distinct values of a column in the order
    in which they first appear.  [shapely.linestrings(coords, indices=...)]
    (shapely 2.0) refuses indices that are not sorted, counts the rows of
    each index with [numpy.bincount], refuses an index without rows, and
    cuts the coordinate rows, in order, into runs of those sizes; the
    geometry engine refuses a line of a single vertex. *)

Module Trajectories.
Import Arrays.
Local Open Scope list_scope.

(** The ways [shapely.linestrings] fails: three [ValueError]s of its own
    and the engine's [GEOSException] for a line of one vertex. *)
Inductive error :=
| NotEqualSize            (* geometries and indices do not have equal size. *)
| NotSorted               (* The indices must be sorted. *)
| MissingIndex (k : nat)  (* Index k is missing from the input indices. *)
| OneVertex (k : nat).    (* point array must contain 0 or >1 elements *)

Inductive result (A : Type) := Ok (a : A) | Err (e : error).
Arguments Ok {A} a.
Arguments Err {A} e.

Fixpoint index_of (x : Z) (l : list Z) : option nat :=
  match l with
  | [] => None
  | y :: r => if (x =? y)%Z then Some 0 else option_map S (index_of x r)
  end.

(** [codes, uniques = pandas.factorize(values)], with [uniques] the values
    already met. *)
Fixpoint factorize_from (uniques : list Z) (values : list Z) : list nat * list Z :=
  match values with
  | [] => ([], uniques)
  | x :: r =>
      match index_of x uniques with
      | Some i => let (codes, u) := factorize_from uniques r in (i :: codes, u)
      | None =>
          let (codes, u) := factorize_from (uniques ++ [x]) r in
          (length uniques :: codes, u)
      end
  end.

Definition factorize (values : list Z) : list nat * list Z := factorize_from [] values.

(** [numpy.bincount]: how often each of [0 .. max] occurs. *)
Fixpoint count_in (k : nat) (counts : list nat) : list nat :=
  match k, counts with
  | 0, [] => [1]
  | 0, c :: r => S c :: r
  | S k', [] => 0 :: count_in k' []
  | S k', c :: r => c :: count_in k' r
  end.

Definition bincount (x : list nat) : list nat := fold_right count_in [] x.

(** [np.any(indices[1:] < indices[:-1])] is false. *)
Fixpoint sorted (x : list nat) : bool :=
  match x with
  | a :: (b :: _) as r => (a <=? b) && sorted r
  | _ => true
  end.

Section Frame.

(** A row of [df[["lon", "lat"]]]. *)
Variable coordinate : Type.

Definition LineString : Type := list coordinate.

(** The loop over [geom_idx]: geometry [k] takes the next [counts[k]] rows. *)
Fixpoint take_runs (counts : list nat) (coords : list coordinate) (k : nat)
  : result (list LineString) :=
  match counts with
  | [] => Ok []
  | c :: cs =>
      if c =? 0 then Err (MissingIndex k)
      else if c =? 1 then Err (OneVertex k)
      else match take_runs cs (skipn c coords) (S k) with
           | Ok ls => Ok (firstn c coords :: ls)
           | Err e => Err e
           end
  end.

(** [shapely.linestrings(coords, indices=indices)] *)
Definition linestrings (coords : list coordinate) (indices : list nat)
  : result (list LineString) :=
  if negb (length coords =? length indices) then Err NotEqualSize
  else match coords with
       | [] => Ok []
       | _ => if sorted indices then take_runs (bincount indices) coords 0
              else Err NotSorted
       end.

(** The rows of trajectory [t], in the order of the frame. *)
Definition rows_of (ids : list Z) (coords : list coordinate) (t : Z) : LineString :=
  map snd (filter (fun '(i, _) => (i =? t)%Z) (combine ids coords)).

(** Cell 49:
    [shapely.linestrings(df[["lon", "lat"]], indices=pandas.factorize(df.traj_id)[0])] *)
Definition lines_of_today (ids : list Z) (coords : list coordinate)
  : result (list LineString) :=
  linestrings coords (fst (factorize ids)).

End Frame.

Arguments take_runs {coordinate} counts coords k.
Arguments linestrings {coordinate} coords indices.
Arguments rows_of {coordinate} ids coords t.
Arguments lines_of_today {coordinate} ids coords.

(** Cell 41:
    [df.groupby(["traj_id"])[["lon", "lat"]].apply(lambda x: LineString(x))]:
    the grouping it computes, one group of rows per key, keys ascending,
    rows in the order of the frame; each group is handed to [LineString]. *)
Definition lines_of_the_past {coordinate} (ids : list Z) (coords : list coordinate)
  : list (list coordinate) :=
  map (rows_of ids coords) (group_keys ids).

(** Rows that share an id are next to each other. *)
Definition contiguous (ids : list Z) : Prop :=
  forall i j k a, i <= j <= k ->
    nth_error ids i = Some a -> nth_error ids k = Some a -> nth_error ids j = Some a.

Definition memZ (x : Z) (l : list Z) : bool := existsb (Z.eqb x) l.

(** Every trajectory has at least two rows. *)
Definition two_rows_each (ids : list Z) : Prop :=
  forall t, In t ids -> 2 <= count_occ Z.eq_dec ids t.

(** Contiguity as a check: an id is repeated by the next row or never again. *)
Fixpoint contiguousb (ids : list Z) : bool :=
  match ids with
  | [] => true
  | x :: r =>
      match r with
      | [] => true
      | y :: _ => (x =? y)%Z || negb (memZ x r)
      end && contiguousb r
  end.

(** A frame whose ids are contiguous is a sequence of runs: a key and how
    many more rows than one it spans. *)
Definition expand (runs : list (Z * nat)) : list Z :=
  flat_map (fun '(k, m) => repeat k (S m)) runs.

Definition keys (runs : list (Z * nat)) : list Z := map fst runs.

Definition sizes (runs : list (Z * nat)) : list nat := map (fun '(_, m) => S m) runs.

Fixpoint codes_from (b : nat) (runs : list (Z * nat)) : list nat :=
  match runs with
  | [] => []
  | (_, m) :: r => repeat b (S m) ++ codes_from (S b) r
  end.

End Trajectories.


(** * Merging overlapping polygons (cells 121 to 135)

    The geometry engine's predicate [overlaps] and its union are taken as
    they come; the graph routine is
    [scipy.sparse.csgraph.connected_components] with its default arguments
    ([directed=True], [connection='weak']): an edge joins its two ends
    whichever way it points, nodes are visited by increasing index, and the
    components are numbered in the order in which they are met.  A dense
    graph must be an array of two dimensions, and any graph square:
    otherwise the routine raises [ValueError]. *)

Module Dissolve.
Import Arrays.
Local Open Scope list_scope.

(** A sparse matrix in coordinate format: [coo_array((data, (row, col)), shape)]. *)
Record coo_array := {
  data : list bool;
  row : list nat;
  col : list nat;
  shape : nat * nat
}.

(** A numpy array of booleans, of one or of two dimensions. *)
Inductive ndarray :=
| Array1 (values : list bool)
| Array2 (rows : list (list bool)).

(** What [connected_components] accepts: a dense array or a sparse matrix. *)
Inductive graph :=
| Dense (a : ndarray)
| Sparse (c : coo_array).

Inductive graph_error := NotTwoDimensional | NotSquare.

Inductive result (A : Type) :=
| Ok (a : A)
| Err (e : graph_error).
Arguments Ok {A} a.
Arguments Err {A} e.

(** What [connected_components] reads of its argument: the number of nodes
    and which entries are set. *)
Record csgraph := { n_nodes : nat; edge : nat -> nat -> bool }.

Definition dense_entry (m : list (list bool)) (i j : nat) : bool :=
  match nth_error m i with
  | Some r => match nth_error r j with Some b => b | None => false end
  | None => false
  end.

Definition coo_entry (c : coo_array) (i j : nat) : bool :=
  existsb (fun '(d, (r, k)) => d && (r =? i) && (k =? j))
          (combine (data c) (combine (row c) (col c))).

Definition from_dense (m : list (list bool)) : csgraph :=
  {| n_nodes := length m; edge := dense_entry m |}.

Definition from_coo (c : coo_array) : csgraph :=
  {| n_nodes := fst (shape c); edge := coo_entry c |}.

Definition mem (x : nat) (l : list nat) : bool := existsb (Nat.eqb x) l.

Definition VOID : Z := (-1)%Z.

(** [i] and [j] are joined by a chain of links among the first [n] nodes. *)
Inductive connected (linked : nat -> nat -> bool) (n : nat) (i : nat) : nat -> Prop :=
| connected_here : connected linked n i i
| connected_next (j k : nat) :
    connected linked n i j -> j < n -> k < n -> linked j k = true ->
    connected linked n i k.

Section Components.

(** [linked i j]: there is an edge between [i] and [j], either way. *)
Variable linked : nat -> nat -> bool.
Variable n : nat.

(** The nodes not yet seen that a link joins to a seen one. *)
Definition frontier (seen : list nat) : list nat :=
  filter (fun j => negb (mem j seen) && existsb (fun i => linked i j) seen) (seq 0 n).

(** The nodes within [fuel] steps of [seen]. *)
Fixpoint component (fuel : nat) (seen : list nat) : list nat :=
  match fuel with
  | 0 => seen
  | S k => component k (seen ++ frontier seen)
  end.

(** No link leads out of [s]. *)
Definition closed (s : list nat) : Prop :=
  forall j k, In j s -> j < n -> k < n -> linked j k = true -> In k s.

Definition mark (label : Z) (comp : list nat) (labels : list Z) : list Z :=
  map (fun '(j, l) => if mem j comp then label else l) (indexed labels).

Fixpoint label_nodes (todo : list nat) (labels : list Z) (label : Z) : Z * list Z :=
  match todo with
  | [] => (label, labels)
  | v :: rest =>
      if (nth v labels VOID =? VOID)%Z
      then label_nodes rest (mark label (component n [v]) labels) (label + 1)%Z
      else label_nodes rest labels label
  end.

(** What the labelling loop keeps true once the nodes below [a] are done:
    every label given so far marks one whole component. *)
Record labelled (a : nat) (labels : list Z) (next : Z) : Prop := {
  labelled_length : length labels = n;
  labelled_range : forall i, i < n ->
      nth i labels VOID = VOID \/ (0 <= nth i labels VOID < next)%Z;
  labelled_done : forall i, i < a -> i < n -> nth i labels VOID <> VOID;
  labelled_classes : forall i j, i < n -> j < n -> nth i labels VOID <> VOID ->
      (nth i labels VOID = nth j labels VOID <-> connected linked n i j)
}.

End Components.

(** The labelling of a validated graph. *)
Definition weak_components (g : csgraph) : Z * list Z :=
  label_nodes (fun i j => edge g i j || edge g j i) (n_nodes g)
              (seq 0 (n_nodes g)) (repeat VOID (n_nodes g)) 0%Z.

(** The validation [connected_components] starts with: a dense graph of
    one dimension is refused ("graph should have two dimensions"), and so
    is a graph that is not square. *)
Definition validate_graph (g : graph) : result csgraph :=
  match g with
  | Dense (Array1 _) => Err NotTwoDimensional
  | Dense (Array2 m) =>
      if forallb (fun r => length r =? length m) m
      then Ok (from_dense m) else Err NotSquare
  | Sparse c =>
      if fst (shape c) =? snd (shape c) then Ok (from_coo c) else Err NotSquare
  end.

(** [n_components, labels = connected_components(csgraph)] *)
Definition connected_components (g : graph) : result (Z * list Z) :=
  match validate_graph g with
  | Ok g => Ok (weak_components g)
  | Err e => Err e
  end.

Section Frame.

Variable geometry : Type.
(** [a.overlaps(b)] *)
Variable overlaps : geometry -> geometry -> bool.
(** The union of the geometries of one group. *)
Variable unary_union : list geometry -> geometry.

(** [s.overlaps(x)]: one answer per row of [s]. *)
Definition series_overlaps (s : list geometry) (x : geometry) : list bool :=
  map (fun g => overlaps g x) s.

(** [s.geometry.apply(f).values] for an [f] that returns a series: pandas
    calls [f] on every row and stacks the series it gets into a frame, one
    line per row; on a frame without rows [f] is never called and [apply]
    gives back an empty series, whose values have one dimension. *)
Definition apply_values (f : geometry -> list bool) (s : list geometry) : ndarray :=
  match s with
  | [] => Array1 []
  | _ :: _ => Array2 (map f s)
  end.

(** The lines of the matrix of cell 124, one per row of [s]. *)
Definition overlap_rows (s : list geometry) : list (list bool) :=
  map (fun x => series_overlaps s x) s.

(** Cell 124:
    [overlap_matrix = s.geometry.apply(lambda x: s.overlaps(x)).values.astype(bool)] *)
Definition overlap_matrix (s : list geometry) : ndarray :=
  apply_values (fun x => series_overlaps s x) s.

(** [tree.sindex.query_bulk(input, predicate="overlaps")]: the pairs
    (index in [input], index in [tree]) whose geometries satisfy
    [input_geometry.overlaps(tree_geometry)], as two arrays. *)
Definition query_pairs (tree input : list geometry) : list (nat * nat) :=
  flat_map (fun '(i, g) =>
              flat_map (fun '(j, t) => if overlaps g t then [(i, j)] else [])
                       (indexed tree))
           (indexed input).

Definition query_bulk (tree input : list geometry) : list nat * list nat :=
  (map fst (query_pairs tree input), map snd (query_pairs tree input)).

(** Cell 130: the names [right_index] and [left_index] take the input
    indices and the tree indices in this order. *)
Definition connectivity (s : list geometry) : coo_array :=
  let '(right_index, left_index) := query_bulk s s in
  {| data := repeat true (length right_index);
     row := right_index;
     col := left_index;
     shape := (length s, length s) |}.

(** Cell 124: [n, ids = connected_components(overlap_matrix)] *)
Definition old_components (s : list geometry) : result (Z * list Z) :=
  connected_components (Dense (overlap_matrix s)).

(** Cell 130: [n, ids = connected_components(connectivity)] *)
Definition new_components (s : list geometry) : result (Z * list Z) :=
  connected_components (Sparse (connectivity s)).

(** [s.dissolve(ids)]: the rows are grouped by label, groups in ascending
    order of label, and each group is merged into one geometry. *)
Definition group_rows (s : list geometry) (ids : list Z) (k : Z) : list geometry :=
  map snd (filter (fun '(l, _) => (l =? k)%Z) (combine ids s)).

Definition dissolve (s : list geometry) (ids : list Z) : list (Z * geometry) :=
  map (fun k => (k, unary_union (group_rows s ids k))) (group_keys ids).

End Frame.

Arguments series_overlaps {geometry} overlaps s x.
Arguments apply_values {geometry} f s.
Arguments overlap_rows {geometry} overlaps s.
Arguments overlap_matrix {geometry} overlaps s.
Arguments query_pairs {geometry} overlaps tree input.
Arguments query_bulk {geometry} overlaps tree input.
Arguments connectivity {geometry} overlaps s.
Arguments old_components {geometry} overlaps s.
Arguments new_components {geometry} overlaps s.
Arguments group_rows {geometry} s ids k.
Arguments dissolve {geometry} unary_union s ids.

(** The four squares of cell 121, as boxes [xmin, ymin, xmax, ymax]; two
    boxes overlap when their interiors meet and neither holds the other. *)
Record box := { xmin : Z; ymin : Z; xmax : Z; ymax : Z }.

Definition box_within (a b : box) : bool :=
  ((xmin b <=? xmin a) && (xmax a <=? xmax b)
   && (ymin b <=? ymin a) && (ymax a <=? ymax b))%Z.

Definition box_overlaps (a b : box) : bool :=
  ((Z.max (xmin a) (xmin b) <? Z.min (xmax a) (xmax b))
   && (Z.max (ymin a) (ymin b) <? Z.min (ymax a) (ymax b)))%Z
  && negb (box_within a b) && negb (box_within b a).

(** The bounding box of a group of boxes: what stands for the union of
    the group where an example needs one. *)
Definition hull (g : list box) : box :=
  match g with
  | [] => {| xmin := 0; ymin := 0; xmax := 0; ymax := 0 |}
  | a :: r =>
      fold_left (fun h b => {| xmin := Z.min (xmin h) (xmin b);
                               ymin := Z.min (ymin h) (ymin b);
                               xmax := Z.max (xmax h) (xmax b);
                               ymax := Z.max (ymax h) (ymax b) |}) r a
  end%Z.

Definition squares : list box :=
  [ {| xmin := 0; ymin := 0; xmax := 2; ymax := 2 |};
    {| xmin := 0; ymin := 1; xmax := 2; ymax := 3 |};
    {| xmin := 1; ymin := 0; xmax := 3; ymax := 2 |};
    {| xmin := 4; ymin := 4; xmax := 6; ymax := 6 |} ]%Z.

End Dissolve.


(** * Running the cells in order: names and files

    Running the cells in order threads a state through them: the names
    bound in the kernel, the files on disk.  A step uses some items of the
    state and adds others.  At the first step that uses an item the state
    lacks, the session is shown its first error of this kind, a
    [NameError] or a missing file: [run] reports the item and follows the
    session no further. *)

Module Dataflow.
Local Open Scope list_scope.

Definition mem (x : string) (l : list string) : bool := existsb (String.eqb x) l.

Record step := { uses : list string; defines : list string }.

Inductive outcome :=
| Finished (state : list string)
| Missing (item : string).

(** The first item of [l] that [state] lacks. *)
Definition lacking (state l : list string) : option string :=
  find (fun x => negb (mem x state)) l.

Fixpoint run (state : list string) (steps : list step) : outcome :=
  match steps with
  | [] => Finished state
  | s :: r =>
      match lacking state (uses s) with
      | Some x => Missing x
      | None => run (defines s ++ state) r
      end
  end.

(** The items a run must find in its initial state: those used before any
    step has defined them. *)
Fixpoint needs (steps : list step) : list string :=
  match steps with
  | [] => []
  | s :: r => uses s ++ filter (fun x => negb (mem x (defines s))) (needs r)
  end.

(** The items the steps add to the state, latest first. *)
Fixpoint provides (steps : list step) : list string :=
  match steps with
  | [] => []
  | s :: r => provides r ++ defines s
  end.

(** A step that adds nothing to the state. *)
Definition quiet (s : step) : bool :=
  match defines s with [] => true | _ => false end.

(** Two lists with the same items. *)
Definition same_items (l m : list string) : bool :=
  forallb (fun x => mem x m) l && forallb (fun x => mem x l) m.

End Dataflow.

(** ** Names

    The names a statement reads and the names it binds.  The names the
    body of a [def] or of a lambda reads are counted where the function is
    written, not where it is called: its parameters and the names it
    assigns are its own, every other name must be bound by then.  [Py] has
    no statement that unbinds a name, so a name bound where a function is
    written is still bound when it is called: a run that finds every name
    here finds every name in Python.  [%time] and [%%time] run their code
    in the kernel's namespace; [%timeit] runs its statement in a function
    of its own and binds nothing in the kernel. *)

Module Names.
Import Py Notebook Concurrency Dataflow.
Local Open Scope list_scope.

(** The names an assignment or a comprehension binds through its target. *)
Fixpoint target_names (t : expr) : list string :=
  match t with
  | Name x => [x]
  | TupleLit es | ListLit es => flat_map target_names es
  | _ => []
  end.

(** The names an expression reads that [bound] does not bind: the
    parameters of a lambda and the target of a comprehension are bound in
    their bodies. *)
Fixpoint free (bound : list string) (e : expr) : list string :=
  let opt o := match o with Some x => free bound x | None => [] end in
  match e with
  | Name x => if mem x bound then [] else [x]
  | Constant _ => []
  | Attribute v _ => free bound v
  | Call f args kws =>
      free bound f ++ flat_map (free bound) args
        ++ flat_map (fun '(_, v) => free bound v) kws
  | Lambda params b => free (params ++ bound) b
  | Subscript v s => free bound v ++ free bound s
  | Slice lo hi st => opt lo ++ opt hi ++ opt st
  | TupleLit es | ListLit es => flat_map (free bound) es
  | DictLit kvs => flat_map (fun '(k, v) => free bound k ++ free bound v) kvs
  | BinOp _ l r => free bound l ++ free bound r
  | UnaryOp _ x => free bound x
  | ListComp elt target iter =>
      free bound iter ++ free (target_names target ++ bound) elt
  end.

(** What an assignment reads of its target: nothing of a name or a tuple
    of names, the object and the key of [obj[key] = value]. *)
Definition target_reads (t : expr) : list string :=
  match t with
  | Name _ | TupleLit _ | ListLit _ => []
  | _ => free [] t
  end.

Definition is_timeit (s : stmt) : bool :=
  match s with LineMagic magic _ => String.eqb magic "timeit" | _ => false end.

(** The steps of a statement.  [import a.b] binds [a]; [from m import n]
    binds [n]. *)
Fixpoint steps_of (s : stmt) : list step :=
  let fix block (ss : list stmt) : list step :=
    match ss with [] => [] | s :: r => steps_of s ++ block r end in
  let fix handler_blocks (hs : list (option expr * list stmt)) : list step :=
    match hs with
    | [] => []
    | (ty, h) :: r =>
        {| uses := match ty with Some t => free [] t | None => [] end; defines := [] |}
          :: block h ++ handler_blocks r
    end in
  match s with
  | Import m => [{| uses := []; defines := [root_module m] |}]
  | ImportFrom _ names => [{| uses := []; defines := names |}]
  | Assign t v => [{| uses := free [] v ++ target_reads t; defines := target_names t |}]
  | Expr v | Return v => [{| uses := free [] v; defines := [] |}]
  | FunctionDef n params b =>
      [{| uses := flat_map (free []) (default_exprs params)
                  ++ filter (fun x => negb (mem x (map fst params))) (needs (block b));
          defines := [n] |}]
  | LineMagic magic s =>
      if String.eqb magic "timeit"
      then map (fun st => {| uses := uses st; defines := [] |}) (steps_of s)
      else steps_of s
  | Try b hs o f => block b ++ handler_blocks hs ++ block o ++ block f
  | With c b => {| uses := free [] c; defines := [] |} :: block b
  | Raise e =>
      [{| uses := match e with Some x => free [] x | None => [] end; defines := [] |}]
  | ClassDef n bases b =>
      [{| uses := flat_map (free []) bases ++ needs (block b); defines := [n] |}]
  end.

Definition name_steps (cells : list cell) : list step :=
  flat_map steps_of (flat_map body cells).

(** The built-in names of Python the notebook reads. *)
Definition builtins : list string :=
  ["map"; "zip"; "float"; "str"; "dict"; "print"; "len"; "bool"].

(** The cells of the workshop notebook from position [a] to position [b]. *)
Definition cells_between (a b : nat) : list cell :=
  filter (fun c => (a <=? position c) && (position c <=? b)) GeoPython2023.notebook.

(** A section of the workshop notebook: its heading, the positions of its
    first and last code cells, and what it takes from outside when it is
    run right after the import cell: the names it reads that neither the
    import cell nor an earlier statement of the section binds, and the
    files it reads that no earlier statement of the section writes. *)
Record section_of_cells := {
  heading : string;
  span : nat * nat;
  names_from_outside : list string;
  files_from_outside : list string
}.

Definition distance_operations : section_of_cells :=
  {| heading := "Distance operations"; span := (95, 119);
     names_from_outside := ["print"; "len"];
     files_from_outside := ["data/sales.gpkg"; "data/food_establishments.gpkg"] |}.

Definition sections : list section_of_cells :=
  [{| heading := "Data creation"; span := (5, 53);
      names_from_outside := ["map"; "zip"];
      files_from_outside := ["data/sales.csv"; "data/sales.parquet"] |};
   {| heading := "Reading/writing geospatial file formats"; span := (55, 63);
      names_from_outside := [];
      files_from_outside := ["data/sales.geojson"] |};
   {| heading := "Coordinate operations"; span := (65, 81);
      names_from_outside := ["gdf"; "wkt"; "float"];
      files_from_outside := [] |};
   {| heading := "Specify coordinate reference system (CRS)"; span := (83, 87);
      names_from_outside := ["gdf"];
      files_from_outside := [] |};
   {| heading := "Interactive maps"; span := (89, 93);
      names_from_outside := ["str"; "dict"];
      files_from_outside := [] |};
   distance_operations;
   {| heading := "Merge overlapping or touching polygons"; span := (121, 141);
      names_from_outside := ["len"; "bool"];
      files_from_outside := [] |}].

(** A section run right after the import cell of the notebook. *)
Definition after_imports (s : section_of_cells) : list cell :=
  GeoPython2023.cell_1 :: cells_between (fst (span s)) (snd (span s)).

End Names.

(** ** Files

    A reader needs its file on disk unless it names a remote address; a
    writer creates or replaces its file. *)

Module Files.
Import Py Notebook Dataflow.
Local Open Scope list_scope.

Definition remote (p : string) : bool :=
  String.prefix "http://" p || String.prefix "https://" p.

Definition io_step (ev : io_event) : step :=
  match ev with
  | Reads p => {| uses := if remote p then [] else [p]; defines := [] |}
  | Writes p => {| uses := []; defines := [p] |}
  end.

(** The reads and writes of one statement, nested statements included. *)
Definition stmt_io (s : stmt) : list io_event :=
  flat_map io_of (flat_map (nodes true) (flat_map own_exprs (statements s))).

Definition stmt_file_steps (s : stmt) : list step := map io_step (stmt_io s).

Definition file_steps (cells : list cell) : list step :=
  flat_map stmt_file_steps (flat_map body cells).

(** The files of the repository the notebooks read without having written
    them. *)
Definition shipped : list string :=
  ["data/sales.csv"; "data/sales.parquet"; "data/sales.geojson";
   "data/food_establishments.gpkg"].

End Files.

(** ** Timing

    [%timeit] runs its statement many times over.  [repeated steps_of n]
    gives the steps of a statement when every [%timeit] line runs its
    statement [n] times. *)

Module Timing.
Import Py Dataflow Names.
Local Open Scope list_scope.

Definition repeated (steps_of : stmt -> list step) (n : nat) (s : stmt) : list step :=
  if is_timeit s then concat (repeat (steps_of s) n) else steps_of s.

End Timing.
(** * What the groups and the lines depend on

    [rows_overlap]: two rows of the frame of cell 121 overlap, one way or
    the other.  [tripled]: cell 47 multiplies the trajectory ids by three,
    in the integers of the column, which wrap around at their width. *)

Module Relabelling.
Import Trajectories Dissolve.
Local Open Scope list_scope.

Definition rows_overlap {geometry : Type} (overlaps : geometry -> geometry -> bool)
    (s : list geometry) (i j : nat) : bool :=
  match nth_error s i, nth_error s j with
  | Some a, Some b => overlaps a b || overlaps b a
  | _, _ => false
  end.

Local Open Scope Z_scope.

(** The integers of [width] bits. *)
Definition fits (width x : Z) : Prop := - 2 ^ (width - 1) <= x < 2 ^ (width - 1).

(** The value an integer of [width] bits takes when a result overflows. *)
Definition wrap (width x : Z) : Z :=
  (x + 2 ^ (width - 1)) mod 2 ^ width - 2 ^ (width - 1).

(** Cell 47: [df["traj_id"] = df["traj_id"] * 3] *)
Definition tripled (width : Z) (ids : list Z) : list Z :=
  map (fun t => wrap width (t * 3)) ids.

End Relabelling.


(** * What the cells contain *)

Module NotebookFacts.
Import Py Notebook.
Local Open Scope list_scope.

Lemma decide_all {A} (P : A -> bool) (l : list A) :
  forallb P l = true -> forall x, In x l -> P x = true.
Proof. intros H x Hx. rewrite forallb_forall in H. now apply H. Qed.

Lemma nearest_dist_authored :
  In {| fn_name := Some "nearest_dist";
        fn_params := ["point"; "other"];
        fn_body :=
          [Assign (Name "nearest")
             (Subscript (Call (Name "nearest_points") [Name "point"; Name "other"] [])
                        (Constant (CInt 1)));
           Return (Call (Attribute (Name "point") "distance") [Name "nearest"] [])] |}
     (authored GeoPython2023.cell_110).
Proof. vm_compute. auto. Qed.

Lemma cell_110_in_cells : In GeoPython2023.cell_110 cells.
Proof. vm_compute. intuition. Qed.

(** C1, as stated: every function the notebooks author only forwards its
    arguments to one external call.  [nearest_dist] (cell 110) does not: it
    calls [nearest_points], takes element 1 of the result and calls
    [distance] on it.  Nor does [mround] (cell 77), which rounds by way of
    Python's own [float] and [format]. *)
Lemma nearest_dist_does_more_than_forward :
  ~ (forall f, In f all_authored -> forwards_only f = true).
Proof.
  intros H.
  pose proof nearest_dist_authored as Hin.
  assert (Hall : In _ all_authored)
    by (apply in_flat_map; exists GeoPython2023.cell_110; split;
        [apply cell_110_in_cells | exact Hin]).
  apply H in Hall. discriminate Hall.
Qed.

(** C1, amended: the notebooks author three named functions and eight
    lambdas.  Every one of them is a straight-line composition of calls,
    attribute access, subscripts and literals (no arithmetic, comprehension,
    nested lambda, branch or loop); three lambdas are pure forwarders, the
    other eight functions do more than forward; the only call from one
    authored function to another is [nearest_dist(geom)]. *)
Theorem authored_functions_only_compose :
  own_functions = ["mround"; "style_function"; "nearest_dist"]
  /\ length all_authored = 11
  /\ (forall f, In f all_authored -> straight_line f = true)
  /\ map fn_name (filter (fun f => negb (forwards_only f)) all_authored)
     = [None; None; Some "mround"; None; Some "style_function"; None;
        Some "nearest_dist"; None]
  /\ flat_map own_calls all_authored = [Call (Name "nearest_dist") [Name "geom"] []].
Proof.
  split; [reflexivity |].
  split; [reflexivity |].
  split; [apply decide_all; vm_compute; reflexivity |].
  split; vm_compute; reflexivity.
Qed.

Lemma cell_60_in_cells : In GeoPython2023.cell_60 cells.
Proof. vm_compute. intuition. Qed.

(** C6, as stated: the cells touch nothing but the five sample data files
    and only read them.  Cell 60 writes two files. *)
Lemma cell_60_writes_files :
  ~ (forall c ev, In c cells -> In ev (cell_io c) -> reads_sample ev = true).
Proof.
  intros H.
  specialize (H GeoPython2023.cell_60 (Writes "data/sales.gpkg") cell_60_in_cells).
  assert (Hin : In (Writes "data/sales.gpkg") (cell_io GeoPython2023.cell_60))
    by (vm_compute; auto).
  apply H in Hin. discriminate Hin.
Qed.

(** C6, amended: every one of the five sample data files is read; beyond
    them the notebooks read [data/sales_geo.parquet] (cell 63) and one
    remote WFS address (cell 89); cell 60 writes [data/sales.gpkg] and
    [data/sales_geo.parquet] and no other cell writes; no cell names any
    other file or address: every string literal with a slash in it is the
    argument of one of these reads and writes. *)
Theorem resources_read_and_written :
  (forall p, In p sample_data -> exists n, In (n, Reads p) all_io)
  /\ filter (fun '(_, ev) => negb (reads_sample ev)) all_io
     = [(60, Writes "data/sales.gpkg");
        (60, Writes "data/sales_geo.parquet");
        (63, Reads "data/sales_geo.parquet");
        (89, Reads (String.concat ""
               ["https://kartta.hsy.fi/geoserver/wfs"; "?service=wfs"; "&version=2.0.0";
                "&request=GetFeature";
                "&typeName=asuminen_ja_maankaytto:Vaestotietoruudukko_2020";
                "&srsName=EPSG:4326"; "&bbox=24.6,60.1,25.2,60.4,EPSG:4326"]))]
  /\ (forall c ev, In c cells -> In ev (cell_io c) -> is_write ev = true ->
        position c = 60)
  /\ filter names_a_resource (flat_map literals cells)
     = map (fun e => resource (snd e)) all_io.
Proof.
  split.
  - intros p Hp.
    assert (Hall : forallb (fun p => existsb (fun '(_, ev) =>
              match ev with Reads q => String.eqb p q | Writes _ => false end) all_io)
              sample_data = true) by (vm_compute; reflexivity).
    apply decide_all with (x := p) in Hall; [| exact Hp].
    apply existsb_exists in Hall. destruct Hall as [[n ev] [Hin Heq]].
    destruct ev as [q | q]; [| discriminate].
    apply String.eqb_eq in Heq. subst q. now exists n.
  - split; [vm_compute; reflexivity |]. split; [| vm_compute; reflexivity].
    intros c ev Hc Hev Hw.
    assert (Hall : forallb (fun c => forallb (fun ev => implb (is_write ev)
              (Nat.eqb (position c) 60)) (cell_io c)) cells = true)
      by (vm_compute; reflexivity).
    apply decide_all with (x := c) in Hall; [| exact Hc].
    apply decide_all with (x := ev) in Hall; [| exact Hev].
    rewrite Hw in Hall. now apply Nat.eqb_eq in Hall.
Qed.

End NotebookFacts.

(** * Errors of the wrapped libraries *)

Module ExceptionFacts.
Import Py Notebook Exceptions.
Local Open Scope list_scope.

Section Propagation.

Variable E : Type.
Variable fails : site -> option E.
Variable on_exit : expr -> E -> outcome E.
Variable raised_by : option expr -> E.

Lemma first_failure_app (a b : list site) :
  first_failure fails (a ++ b)
  = match first_failure fails a with
    | Done => first_failure fails b
    | Raised x => Raised x
    end.
Proof.
  induction a as [| s a IH]; simpl; [reflexivity |].
  destruct (fails s); [reflexivity | exact IH].
Qed.

Lemma first_failure_raised (ss : list site) (x : E) :
  first_failure fails ss = Raised x -> exists s, In s ss /\ fails s = Some x.
Proof.
  induction ss as [| s ss IH]; simpl; [discriminate |].
  destruct (fails s) as [y |] eqn:Hs.
  - intros [= ->]. exists s. auto.
  - intros H. destruct (IH H) as [s' [Hin Hf]]. exists s'. auto.
Qed.

Lemma first_failure_not_done (ss : list site) :
  (exists s, In s ss /\ fails s <> None) -> exists x, first_failure fails ss = Raised x.
Proof.
  induction ss as [| s ss IH]; simpl; intros [s' [Hin Hf]]; [contradiction |].
  destruct (fails s) as [y |] eqn:Hs; [now exists y |].
  destruct Hin as [-> | Hin]; [congruence |].
  apply IH. now exists s'.
Qed.

Lemma andthen_done (b : shown E) : andthen (Shown [] Done) b = b.
Proof. now destruct b. Qed.

Lemma caught_caught (a : shown E) : caught (caught a) = caught a.
Proof. destruct a as [p [| x]]; reflexivity. Qed.

Lemma first_shown_caught (a : shown E) : first_shown (caught a) = first_shown a.
Proof. destruct a as [[| y p] [| x]]; reflexivity. Qed.

Lemma session_sees_caught (a : shown E) : session_sees (caught a) = session_sees a.
Proof.
  destruct a as [p [| x]]; unfold session_sees; cbn; [reflexivity |].
  now rewrite app_nil_r.
Qed.

Lemma ended_caught (a : shown E) : ended (caught a) = Done.
Proof. destruct a as [p [| x]]; reflexivity. Qed.

Lemma plain_of_statements (s : stmt) :
  existsb handles (statements s) = false -> plain s = true.
Proof.
  induction s; simpl; intros H; try reflexivity; try discriminate.
  apply IHs. exact H.
Qed.

(** A statement without handlers shows the error of its first failing
    site; a [%time] above it keeps the error in the line. *)
Lemma exec_plain (s : stmt) :
  plain s = true -> exec fails on_exit raised_by s = line fails s.
Proof.
  unfold line. induction s; intros Hp; try discriminate Hp.
  - reflexivity.
  - reflexivity.
  - cbn [exec stmt_sites own_exprs flat_map timed]. unfold eval, andthen. cbn.
    rewrite app_nil_r, first_failure_app.
    now destruct (first_failure fails (expr_sites value)).
  - cbn [exec stmt_sites own_exprs flat_map timed]. unfold eval. now rewrite app_nil_r.
  - reflexivity.
  - cbn [exec stmt_sites own_exprs flat_map timed]. unfold eval. now rewrite app_nil_r.
  - cbn [exec stmt_sites timed]. rewrite (IHs Hp).
    destruct (is_time magic), (timed s); cbn [orb]; try reflexivity.
    apply caught_caught.
  - reflexivity.
Qed.

Lemma exec_block_plain (ss : list stmt) :
  existsb handles (flat_map statements ss) = false ->
  exec_block fails on_exit raised_by ss = lines fails ss.
Proof.
  induction ss as [| s ss IH]; intros H; [reflexivity |].
  cbn [flat_map] in H. rewrite existsb_app in H. apply orb_false_elim in H.
  destruct H as [Hs Hss].
  cbn [exec_block lines].
  rewrite (exec_plain s (plain_of_statements s Hs)). now rewrite IH.
Qed.

(** The first error shown is the error of the first failing site. *)
Lemma first_shown_lines (ss : list stmt) :
  first_shown (lines fails ss) = first_failure fails (flat_map stmt_sites ss).
Proof.
  induction ss as [| s ss IH]; [reflexivity |].
  cbn [lines flat_map]. rewrite first_failure_app. unfold line.
  destruct (first_failure fails (stmt_sites s)) as [| x].
  - replace (if timed s then caught (Shown [] Done) else Shown [] Done)
      with (@Shown E [] Done) by now destruct (timed s).
    now rewrite andthen_done.
  - now destruct (timed s).
Qed.

(** The error that ends the code is the first one outside [%time]. *)
Lemma ended_lines (ss : list stmt) :
  ended (lines fails ss)
  = first_failure fails (flat_map stmt_sites (filter (fun s => negb (timed s)) ss)).
Proof.
  induction ss as [| s ss IH]; [reflexivity |].
  cbn [lines filter]. unfold line.
  destruct (timed s); cbn [negb].
  - destruct (first_failure fails (stmt_sites s)); cbn; exact IH.
  - cbn [flat_map]. rewrite first_failure_app.
    destruct (first_failure fails (stmt_sites s)); cbn; [exact IH | reflexivity].
Qed.

(** Every error shown was raised by a site of the statements. *)
Lemma session_sees_lines (ss : list stmt) (x : E) :
  In x (session_sees (lines fails ss)) ->
  exists s, In s (flat_map stmt_sites ss) /\ fails s = Some x.
Proof.
  induction ss as [| s ss IH]; [intros [] |].
  assert (Hrest : In x (session_sees (lines fails ss)) ->
                  exists t, In t (flat_map stmt_sites (s :: ss)) /\ fails t = Some x).
  { intros H. destruct (IH H) as [t [Ht Hf]]. exists t.
    split; [cbn [flat_map]; apply in_app_iff; now right | exact Hf]. }
  assert (Hhere : forall y, first_failure fails (stmt_sites s) = Raised y ->
                  exists t, In t (flat_map stmt_sites (s :: ss)) /\ fails t = Some y).
  { intros y H. destruct (first_failure_raised _ _ H) as [t [Ht Hf]]. exists t.
    split; [cbn [flat_map]; apply in_app_iff; now left | exact Hf]. }
  cbn [lines]. unfold line.
  destruct (first_failure fails (stmt_sites s)) as [| y] eqn:Hs.
  - replace (if timed s then caught (Shown [] Done) else Shown [] Done)
      with (@Shown E [] Done) by now destruct (timed s).
    rewrite andthen_done. exact Hrest.
  - destruct (timed s).
    + unfold session_sees, andthen. cbn. intros [-> | H]; [now apply Hhere |].
      now apply Hrest.
    + unfold session_sees, andthen. cbn. intros [-> | []]. now apply Hhere.
Qed.

(** Without a [%time] line the code ends at its first failing site. *)
Lemma lines_untimed (ss : list stmt) :
  existsb timed ss = false ->
  lines fails ss = Shown [] (first_failure fails (flat_map stmt_sites ss)).
Proof.
  induction ss as [| s ss IH]; intros H; [reflexivity |].
  cbn [existsb] in H. apply orb_false_elim in H. destruct H as [Hs Hss].
  cbn [lines flat_map]. unfold line. rewrite Hs, (IH Hss), first_failure_app.
  now destruct (first_failure fails (stmt_sites s)).
Qed.

End Propagation.

Lemma no_cell_handles :
  forall c, In c cells ->
    existsb handles (cell_statements c) = false
    /\ existsb is_class (cell_statements c) = false.
Proof.
  intros c Hc.
  assert (Hall : forallb (fun c => negb (existsb handles (cell_statements c))
                                  && negb (existsb is_class (cell_statements c)))
                         cells = true) by (vm_compute; reflexivity).
  rewrite forallb_forall in Hall. specialize (Hall c Hc).
  apply andb_true_iff in Hall. destruct Hall as [H1 H2].
  split; now apply negb_true_iff.
Qed.

(** No cell under [%%time] has a [%time] line of its own. *)
Lemma no_time_within_time :
  forall c, In c cells -> cell_timed c = true -> existsb timed (body c) = false.
Proof.
  intros c Hc.
  assert (Hall : forallb (fun c => implb (cell_timed c) (negb (existsb timed (body c))))
                         cells = true) by (vm_compute; reflexivity).
  rewrite forallb_forall in Hall. specialize (Hall c Hc).
  intros Ht. rewrite Ht in Hall. now apply negb_true_iff.
Qed.

(** Of the 83 code cells, 12 have a [%time] line and 20 are under
    [%%time]. *)
Lemma cells_under_time :
  length cells = 83
  /\ length (filter (fun c => existsb timed (body c)) cells) = 12
  /\ length (filter cell_timed cells) = 20
  /\ length (filter under_time cells) = 32.
Proof. repeat split; vm_compute; reflexivity. Qed.




End ExceptionFacts.

(** * No cell leaves work running *)

Module ConcurrencyFacts.
Import Py Notebook Concurrency.
Local Open Scope list_scope.

Lemma mem_true_In (x : string) (l : list string) : mem x l = true -> In x l.
Proof.
  unfold mem. rewrite existsb_exists. intros [y [Hy He]].
  apply String.eqb_eq in He. now subst.
Qed.

(** Cells that start nothing find nothing running. *)
Lemma run_cells_nothing_started (cs : list cell) :
  (forall c, In c cs -> started c = []) ->
  forall k pending, In (k, pending) (run_cells [] cs) -> pending = [].
Proof.
  induction cs as [| c cs IH]; intros Hs k pending; [intros [] |].
  cbn [run_cells]. rewrite (Hs c (or_introl eq_refl)). cbn [map]. rewrite app_nil_r.
  intros [H | H].
  - now injection H as _ <-.
  - apply (IH (fun c' Hc' => Hs c' (or_intror Hc')) k pending H).
Qed.

Lemma nothing_started : forall c, In c cells -> started c = [].
Proof.
  intros c Hc.
  assert (Hall : forallb (fun c => match started c with [] => true | _ => false end)
                         cells = true) by (vm_compute; reflexivity).
  rewrite forallb_forall in Hall. specialize (Hall c Hc).
  now destruct (started c).
Qed.


End ConcurrencyFacts.


(** * Facts about rows and positions *)

Module ArrayFacts.
Import Arrays.

Lemma in_indexed_from {A} (l : list A) (a i : nat) (x : A) :
  In (i, x) (indexed_from a l) <-> a <= i /\ nth_error l (i - a) = Some x.
Proof.
  unfold indexed_from. revert a. induction l as [| y l IH]; intros a; simpl.
  - split; [contradiction |]. intros [_ H]. destruct (i - a); discriminate.
  - rewrite IH. split.
    + intros [H | [Hle H]].
      * injection H as <- <-. rewrite Nat.sub_diag. auto.
      * split; [lia |]. replace (i - a) with (S (i - S a)) by lia. exact H.
    + intros [Hle H]. destruct (Nat.eq_dec a i) as [-> | Hne].
      * rewrite Nat.sub_diag in H. injection H as <-. now left.
      * right. split; [lia |]. replace (i - a) with (S (i - S a)) in H by lia. exact H.
Qed.

Lemma in_indexed {A} (l : list A) (i : nat) (x : A) :
  In (i, x) (indexed l) <-> nth_error l i = Some x.
Proof.
  unfold indexed. rewrite in_indexed_from, Nat.sub_0_r. intuition lia.
Qed.

Lemma combine_app {A B} (a1 a2 : list A) (b1 b2 : list B) :
  length a1 = length b1 ->
  combine (a1 ++ a2) (b1 ++ b2) = combine a1 b1 ++ combine a2 b2.
Proof.
  revert b1. induction a1 as [| x a1 IH]; intros [| y b1] Hl; try discriminate Hl;
    [reflexivity |].
  simpl. f_equal. apply IH. now injection Hl.
Qed.

Lemma combine_fst_snd {A B} (l : list (A * B)) : combine (map fst l) (map snd l) = l.
Proof. induction l as [| [a b] l IH]; simpl; congruence. Qed.

End ArrayFacts.

(** * Factorised indices and contiguous trajectories *)

Module TrajectoryFacts.
Import Arrays ArrayFacts Trajectories.
Local Open Scope list_scope.

Lemma keys_in_expand (runs : list (Z * nat)) (t : Z) :
  In t (expand runs) <-> In t (keys runs).
Proof.
  induction runs as [| [k m] r IH]; [simpl; tauto |].
  cbn [expand flat_map keys map fst]. fold (expand r) (keys r).
  rewrite in_app_iff, IH. split.
  - intros [H | H]; [left; symmetry; now apply repeat_spec in H | now right].
  - intros [<- | H]; [left; simpl; now left | now right].
Qed.

Lemma contiguous_tail (x : Z) (r : list Z) : contiguous (x :: r) -> contiguous r.
Proof.
  intros H i j k a Hle Hi Hk.
  apply (H (S i) (S j) (S k) a); simpl; auto; lia.
Qed.

Lemma contiguous_head (x y : Z) (r : list Z) :
  contiguous (x :: y :: r) -> x = y \/ ~ In x (y :: r).
Proof.
  intros H. destruct (Z.eq_dec x y) as [-> | Hne]; [now left | right].
  intros Hin. apply In_nth_error in Hin. destruct Hin as [k Hk].
  assert (H1 : nth_error (x :: y :: r) 1 = Some x)
    by (apply (H 0 1 (S k) x); simpl; auto; lia).
  simpl in H1. congruence.
Qed.

Lemma contiguous_runs (ids : list Z) :
  contiguous ids -> exists runs, ids = expand runs /\ NoDup (keys runs).
Proof.
  induction ids as [| x r IH]; intros Hc.
  - exists []. split; [reflexivity | constructor].
  - destruct (IH (contiguous_tail x r Hc)) as [runs [Hr Hnd]].
    destruct r as [| y r'].
    + exists [(x, 0)]. split; [reflexivity |].
      constructor; [intros [] | constructor].
    + destruct (contiguous_head x y r' Hc) as [<- | Hnot].
      * destruct runs as [| [k m] runs']; [discriminate |].
        simpl in Hr. injection Hr as Hk Hr. subst k.
        exists ((x, S m) :: runs'). split; [| exact Hnd].
        simpl. now rewrite Hr.
      * exists ((x, 0) :: runs). split; [simpl; now rewrite Hr |].
        constructor; [| exact Hnd].
        intros Hin. apply Hnot. rewrite Hr. now apply keys_in_expand.
Qed.

Lemma contiguousb_sound (ids : list Z) : contiguousb ids = true -> contiguous ids.
Proof.
  induction ids as [| x r IH]; intros Hb i j k a Hle Hi Hk.
  - destruct i; discriminate.
  - simpl in Hb. apply andb_true_iff in Hb. destruct Hb as [Hx Hr].
    specialize (IH Hr).
    destruct i as [| i].
    + simpl in Hi. injection Hi as <-.
      destruct j as [| j]; [reflexivity |].
      destruct k as [| k]; [lia |].
      destruct r as [| y r']; [destruct k; discriminate |].
      simpl in Hk. simpl.
      apply orb_true_iff in Hx. destruct Hx as [Hxy | Hnot].
      * apply Z.eqb_eq in Hxy. subst y.
        apply (IH 0 j k x); simpl; auto; lia.
      * exfalso. apply negb_true_iff in Hnot.
        assert (Hin : memZ x (y :: r') = true).
        { apply existsb_exists. exists x. split; [| apply Z.eqb_refl].
          eapply nth_error_In. exact Hk. }
        congruence.
    + destruct j as [| j]; [lia |]. destruct k as [| k]; [lia |].
      simpl in *. apply (IH i j k a); auto; lia.
Qed.

(** ** What [pandas.factorize] promises: [uniques.take(codes)] is the column *)

Lemma index_of_some (x : Z) (u : list Z) (i : nat) :
  index_of x u = Some i -> nth_error u i = Some x.
Proof.
  revert i. induction u as [| y u IH]; intros i; simpl; [discriminate |].
  destruct (Z.eqb_spec x y) as [-> | Hne].
  - now intros [= <-].
  - destruct (index_of x u) as [k |]; [| discriminate].
    intros [= <-]. now apply IH.
Qed.

Lemma index_of_absent (x : Z) (u : list Z) : index_of x u = None -> ~ In x u.
Proof.
  induction u as [| y u IH]; simpl; [tauto |].
  destruct (Z.eqb_spec x y) as [-> | Hne]; [discriminate |].
  destruct (index_of x u); [discriminate |]. intros _ [H | H]; [congruence | now apply IH].
Qed.

Lemma factorize_from_takes (values u : list Z) :
  NoDup u ->
  NoDup (snd (factorize_from u values))
  /\ (exists fresh, snd (factorize_from u values) = u ++ fresh)
  /\ map (nth_error (snd (factorize_from u values))) (fst (factorize_from u values))
     = map Some values.
Proof.
  revert u. induction values as [| x r IH]; intros u Hnd.
  - simpl. split; [exact Hnd |]. split; [exists []; now rewrite app_nil_r | reflexivity].
  - simpl. destruct (index_of x u) as [i |] eqn:Hx.
    + destruct (IH u Hnd) as [Hnd' [[fresh Hu] Htake]].
      destruct (factorize_from u r) as [codes u']. cbn [fst snd] in *.
      split; [exact Hnd' |]. split; [now exists fresh |].
      cbn [map]. rewrite Htake. f_equal.
      apply index_of_some in Hx. rewrite Hu. rewrite nth_error_app1; [exact Hx |].
      apply nth_error_Some. congruence.
    + assert (Hnd1 : NoDup (u ++ [x])).
      { apply NoDup_app; [exact Hnd | repeat constructor; auto |].
        intros y Hy [<- | []]. now apply index_of_absent in Hx. }
      destruct (IH (u ++ [x]) Hnd1) as [Hnd' [[fresh Hu] Htake]].
      destruct (factorize_from (u ++ [x]) r) as [codes u']. cbn [fst snd] in *.
      split; [exact Hnd' |]. split; [exists ([x] ++ fresh); now rewrite app_assoc |].
      cbn [map]. rewrite Htake. f_equal.
      rewrite Hu, <- app_assoc. rewrite nth_error_app2 by lia.
      now rewrite Nat.sub_diag.
Qed.

Lemma factorize_takes (values : list Z) :
  NoDup (snd (factorize values))
  /\ map (nth_error (snd (factorize values))) (fst (factorize values)) = map Some values.
Proof.
  destruct (factorize_from_takes values [] (NoDup_nil Z)) as [H1 [_ H2]]. now split.
Qed.

(** ** [pandas.factorize] on runs *)

Lemma index_of_none (x : Z) (u : list Z) : ~ In x u -> index_of x u = None.
Proof.
  induction u as [| y u IH]; simpl; intros H; [reflexivity |].
  destruct (Z.eqb_spec x y) as [-> | Hne]; [exfalso; auto |].
  rewrite IH; [reflexivity | tauto].
Qed.

Lemma index_of_last (x : Z) (u : list Z) :
  ~ In x u -> index_of x (u ++ [x]) = Some (length u).
Proof.
  induction u as [| y u IH]; simpl; intros H.
  - now rewrite Z.eqb_refl.
  - destruct (Z.eqb_spec x y) as [-> | Hne]; [exfalso; auto |].
    rewrite IH; [reflexivity | tauto].
Qed.

Lemma factorize_run (u : list Z) (x : Z) (m : nat) (rest : list Z) :
  ~ In x u ->
  factorize_from (u ++ [x]) (repeat x m ++ rest)
  = (repeat (length u) m ++ fst (factorize_from (u ++ [x]) rest),
     snd (factorize_from (u ++ [x]) rest)).
Proof.
  intros Hx. induction m as [| m IH]; simpl.
  - now destruct (factorize_from (u ++ [x]) rest).
  - rewrite (index_of_last x u Hx), IH. reflexivity.
Qed.

Lemma factorize_runs (runs : list (Z * nat)) (u : list Z) :
  NoDup (u ++ keys runs) ->
  factorize_from u (expand runs) = (codes_from (length u) runs, u ++ keys runs).
Proof.
  revert u. induction runs as [| [k m] r IH]; intros u Hnd; simpl.
  - now rewrite app_nil_r.
  - simpl in Hnd.
    assert (Hk : ~ In k u).
    { apply NoDup_remove_2 in Hnd. intros H. apply Hnd, in_or_app. now left. }
    rewrite (index_of_none k u Hk), (factorize_run u k m (expand r) Hk).
    assert (Hnd' : NoDup ((u ++ [k]) ++ keys r)) by (now rewrite <- app_assoc).
    rewrite (IH (u ++ [k]) Hnd'). cbn [fst snd].
    rewrite length_app, Nat.add_1_r, <- app_assoc. reflexivity.
Qed.

(** ** The checks of [shapely.linestrings] on the codes of runs *)

Lemma sorted_repeat (b m : nat) (l : list nat) :
  sorted l = true -> (forall h, hd_error l = Some h -> b <= h) ->
  sorted (repeat b m ++ l) = true.
Proof.
  intros Hs Hh. induction m as [| m IH]; [exact Hs |].
  cbn [repeat app]. remember (repeat b m ++ l) as w eqn:E.
  destruct w as [| c t]; [reflexivity |].
  change (sorted (b :: c :: t)) with ((b <=? c) && sorted (c :: t)).
  rewrite IH, andb_true_r. apply Nat.leb_le.
  destruct m; simpl in E.
  - apply Hh. now rewrite <- E.
  - injection E as -> _. lia.
Qed.

Lemma codes_from_head (b : nat) (runs : list (Z * nat)) (h : nat) :
  hd_error (codes_from b runs) = Some h -> h = b.
Proof. destruct runs as [| [k m] r]; simpl; congruence. Qed.

Lemma sorted_codes (runs : list (Z * nat)) (b : nat) : sorted (codes_from b runs) = true.
Proof.
  revert b. induction runs as [| [k m] r IH]; intros b; [reflexivity |].
  cbn [codes_from]. apply sorted_repeat; [apply IH |].
  intros h Hh. apply codes_from_head in Hh. lia.
Qed.

Lemma codes_from_succ (runs : list (Z * nat)) (b : nat) :
  codes_from (S b) runs = map S (codes_from b runs).
Proof.
  revert b. induction runs as [| [k m] r IH]; intros b; [reflexivity |].
  cbn [codes_from]. rewrite map_app, map_repeat, IH. reflexivity.
Qed.

Lemma bincount_succ (x : list nat) :
  bincount (map S x) = match x with [] => [] | _ => 0 :: bincount x end.
Proof.
  induction x as [| a x IH]; [reflexivity |].
  change (bincount (map S (a :: x))) with (count_in (S a) (bincount (map S x))).
  rewrite IH. destruct x; reflexivity.
Qed.

Lemma bincount_run (m : nat) (x : list nat) :
  bincount (repeat 0 (S m) ++ map S x) = S m :: bincount x.
Proof.
  induction m as [| m IH].
  - change (bincount (repeat 0 1 ++ map S x)) with (count_in 0 (bincount (map S x))).
    rewrite bincount_succ. destruct x; reflexivity.
  - change (bincount (repeat 0 (S (S m)) ++ map S x))
      with (count_in 0 (bincount (repeat 0 (S m) ++ map S x))).
    rewrite IH. reflexivity.
Qed.

Lemma bincount_codes (runs : list (Z * nat)) : bincount (codes_from 0 runs) = sizes runs.
Proof.
  induction runs as [| [k m] r IH]; [reflexivity |].
  cbn [codes_from sizes map]. rewrite codes_from_succ, bincount_run, IH. reflexivity.
Qed.

Lemma length_expand (runs : list (Z * nat)) :
  length (expand runs) = list_sum (sizes runs).
Proof.
  induction runs as [| [k m] r IH]; [reflexivity |].
  cbn [expand flat_map sizes map list_sum].
  rewrite length_app, repeat_length. fold (expand r). rewrite IH. reflexivity.
Qed.

Lemma length_codes (runs : list (Z * nat)) (b : nat) :
  length (codes_from b runs) = length (expand runs).
Proof.
  revert b. induction runs as [| [k m] r IH]; intros b; [reflexivity |].
  cbn [codes_from expand flat_map]. fold (expand r).
  now rewrite !length_app, !repeat_length, IH.
Qed.

(** ** Sorted codes and contiguous ids *)

Lemma sorted_tail (a : nat) (l : list nat) : sorted (a :: l) = true -> sorted l = true.
Proof.
  destruct l as [| b l]; [reflexivity |].
  change (sorted (a :: b :: l)) with ((a <=? b) && sorted (b :: l)).
  intros H. now apply andb_true_iff in H.
Qed.

Lemma sorted_nth (l : list nat) (i j x y : nat) :
  sorted l = true -> i <= j ->
  nth_error l i = Some x -> nth_error l j = Some y -> x <= y.
Proof.
  revert i j x. induction l as [| a l IH]; intros i j x Hs Hij Hi Hj.
  - destruct i; discriminate.
  - destruct i as [| i].
    + simpl in Hi. injection Hi as <-.
      destruct j as [| j]; [simpl in Hj; injection Hj as <-; lia |].
      simpl in Hj. destruct l as [| b l]; [destruct j; discriminate |].
      change (sorted (a :: b :: l)) with ((a <=? b) && sorted (b :: l)) in Hs.
      apply andb_true_iff in Hs. destruct Hs as [Hab Hs]. apply Nat.leb_le in Hab.
      assert (Hby : b <= y) by (apply (IH 0 j b); auto; lia).
      lia.
    + destruct j as [| j]; [lia |]. simpl in Hi, Hj.
      apply (IH i j x); auto; [now apply sorted_tail in Hs | lia].
Qed.

Lemma take_code (values : list Z) (p c : nat) (v : Z) :
  nth_error (fst (factorize values)) p = Some c ->
  nth_error values p = Some v ->
  nth_error (snd (factorize values)) c = Some v.
Proof.
  intros Hc Hv. destruct (factorize_takes values) as [_ Htake].
  assert (H : nth_error (map (nth_error (snd (factorize values))) (fst (factorize values))) p
              = nth_error (map Some values) p) by (now rewrite Htake).
  rewrite !nth_error_map, Hc, Hv in H. cbn in H. now injection H.
Qed.

Lemma length_codes_of (values : list Z) :
  length (fst (factorize values)) = length values.
Proof.
  destruct (factorize_takes values) as [_ Htake].
  apply (f_equal (@length _)) in Htake. now rewrite !length_map in Htake.
Qed.

(** Codes that pass the check of [shapely.linestrings] come from
    contiguous ids. *)
Lemma sorted_codes_contiguous (ids : list Z) :
  sorted (fst (factorize ids)) = true -> contiguous ids.
Proof.
  intros Hs i j k a [Hij Hjk] Hi Hk.
  assert (Hlen := length_codes_of ids).
  assert (Hcode : forall p v, nth_error ids p = Some v ->
            exists c, nth_error (fst (factorize ids)) p = Some c).
  { intros p v Hp.
    destruct (nth_error (fst (factorize ids)) p) as [c |] eqn:E; [now exists c |].
    apply nth_error_None in E. assert (p < length ids) by (apply nth_error_Some; congruence).
    lia. }
  destruct (Hcode i a Hi) as [ci Hci]. destruct (Hcode k a Hk) as [ck Hck].
  destruct (nth_error ids j) as [b |] eqn:Hj.
  2:{ apply nth_error_None in Hj. assert (k < length ids) by (apply nth_error_Some; congruence).
      lia. }
  destruct (Hcode j b Hj) as [cj Hcj].
  pose proof (take_code ids i ci a Hci Hi) as Hui.
  pose proof (take_code ids k ck a Hck Hk) as Huk.
  pose proof (take_code ids j cj b Hcj Hj) as Huj.
  destruct (factorize_takes ids) as [Hnd _].
  assert (Heq : ci = ck).
  { apply (proj1 (NoDup_nth_error _) Hnd); [apply nth_error_Some; congruence | congruence]. }
  assert (Hle1 : ci <= cj) by (apply (sorted_nth _ i j ci cj Hs Hij Hci Hcj)).
  assert (Hle2 : cj <= ck) by (apply (sorted_nth _ j k cj ck Hs Hjk Hcj Hck)).
  assert (cj = ci) by lia. subst cj. congruence.
Qed.

(** ** Runs of at least two rows *)

Lemma count_in_run (k : Z) (m : nat) (r : list Z) :
  ~ In k r -> count_occ Z.eq_dec (repeat k (S m) ++ r) k = S m.
Proof.
  intros Hk. rewrite count_occ_app, count_occ_repeat_eq by reflexivity.
  apply (count_occ_not_In Z.eq_dec) in Hk. lia.
Qed.

Lemma two_rows_runs (runs : list (Z * nat)) :
  NoDup (keys runs) -> two_rows_each (expand runs) ->
  Forall (fun '(_, m) => 1 <= m) runs.
Proof.
  induction runs as [| [k m] r IH]; intros Hnd Htwo; [constructor |].
  inversion Hnd as [| ? ? Hk Hnd']; subst.
  assert (Hkr : ~ In k (expand r)) by (intros H; apply Hk; now apply keys_in_expand).
  constructor.
  - specialize (Htwo k). cbn [expand flat_map] in Htwo. fold (expand r) in Htwo.
    rewrite (count_in_run k m (expand r) Hkr) in Htwo.
    assert (2 <= S m) by (apply Htwo, in_or_app; left; now left). lia.
  - apply IH; [exact Hnd' |]. intros t Ht.
    specialize (Htwo t). cbn [expand flat_map] in Htwo. fold (expand r) in Htwo.
    rewrite count_occ_app, count_occ_repeat_neq in Htwo;
      [apply Htwo, in_or_app; now right |].
    intros ->. contradiction.
Qed.

(** ** Cutting the rows into runs *)

Section Rows.

Variable coordinate : Type.

Lemma rows_of_app (ids1 ids2 : list Z) (c1 c2 : list coordinate) (t : Z) :
  length ids1 = length c1 ->
  rows_of (ids1 ++ ids2) (c1 ++ c2) t = rows_of ids1 c1 t ++ rows_of ids2 c2 t.
Proof.
  intros Hl. unfold rows_of.
  rewrite combine_app by exact Hl. now rewrite filter_app, map_app.
Qed.

Lemma rows_of_run (k : Z) (c : list coordinate) :
  rows_of (repeat k (length c)) c k = c.
Proof.
  unfold rows_of. induction c as [| x c IH]; [reflexivity |].
  simpl. rewrite Z.eqb_refl. simpl. now rewrite IH.
Qed.

Lemma rows_of_absent (ids : list Z) (c : list coordinate) (t : Z) :
  ~ In t ids -> rows_of ids c t = [].
Proof.
  unfold rows_of. revert c. induction ids as [| i ids IH]; intros c Ht; [reflexivity |].
  destruct c as [| x c]; [reflexivity |]. simpl.
  destruct (Z.eqb_spec i t) as [-> | Hne]; [exfalso; apply Ht; now left |].
  apply IH. intros H. apply Ht. now right.
Qed.

Lemma take_runs_rows (runs : list (Z * nat)) (coords : list coordinate) (b : nat) :
  NoDup (keys runs) -> Forall (fun '(_, m) => 1 <= m) runs ->
  length coords = length (expand runs) ->
  take_runs (sizes runs) coords b = Ok (map (rows_of (expand runs) coords) (keys runs)).
Proof.
  revert coords b. induction runs as [| [k m] r IH]; intros coords b Hnd Htwo Hlen;
    [reflexivity |].
  inversion Htwo as [| ? ? Hm Htwo']; subst.
  cbn [sizes map take_runs keys fst]. cbn [Nat.eqb].
  replace (m =? 0) with false by (symmetry; apply Nat.eqb_neq; lia).
  fold (sizes r). fold (keys r).
  inversion Hnd as [| ? ? Hk Hnd']; subst.
  assert (Hsplit : coords = firstn (S m) coords ++ skipn (S m) coords)
    by (symmetry; apply firstn_skipn).
  cbn [expand flat_map] in Hlen. fold (expand r) in Hlen.
  rewrite length_app, repeat_length in Hlen.
  assert (Hf : length (firstn (S m) coords) = S m) by (rewrite length_firstn; lia).
  assert (Hs : length (skipn (S m) coords) = length (expand r))
    by (rewrite length_skipn; lia).
  rewrite (IH (skipn (S m) coords) (S b) Hnd' Htwo' Hs). f_equal.
  cbn [expand flat_map]. fold (expand r).
  set (c1 := firstn (S m) coords) in *. set (c2 := skipn (S m) coords) in *.
  f_equal.
  - rewrite Hsplit at 1.
    rewrite rows_of_app by (now rewrite repeat_length).
    rewrite <- Hf at 1. rewrite rows_of_run.
    rewrite (rows_of_absent (expand r) c2 k); [symmetry; apply app_nil_r |].
    intros H. apply Hk. now apply keys_in_expand.
  - apply map_ext_in. intros t Ht. rewrite Hsplit at 1.
    rewrite rows_of_app by (now rewrite repeat_length).
    rewrite (rows_of_absent (repeat k (S m)) c1 t); [reflexivity |].
    intros H. apply repeat_spec in H. subst t. contradiction.
Qed.

Lemma lines_of_runs (runs : list (Z * nat)) (coords : list coordinate) :
  NoDup (keys runs) -> Forall (fun '(_, m) => 1 <= m) runs ->
  length coords = length (expand runs) ->
  lines_of_today (expand runs) coords
  = Ok (map (rows_of (expand runs) coords) (snd (factorize (expand runs)))).
Proof.
  intros Hnd Htwo Hlen. unfold lines_of_today, factorize.
  rewrite (factorize_runs runs []) by exact Hnd. cbn [fst snd app length].
  unfold linestrings.
  rewrite Hlen, length_codes, Nat.eqb_refl. cbn [negb].
  destruct coords as [| c coords].
  - destruct runs as [| [k m] r]; [reflexivity | discriminate Hlen].
  - rewrite sorted_codes, bincount_codes.
    now apply take_runs_rows.
Qed.

Lemma not_sorted_refused (ids : list Z) (coords : list coordinate) :
  length coords = length ids -> ~ contiguous ids ->
  lines_of_today ids coords = Err NotSorted.
Proof.
  intros Hlen Hnc. unfold lines_of_today, linestrings.
  rewrite length_codes_of, Hlen, Nat.eqb_refl. cbn [negb].
  destruct coords as [| c coords].
  - exfalso. apply Hnc. destruct ids; [| discriminate Hlen].
    intros i j k a _ Hi. destruct i; discriminate.
  - destruct (sorted (fst (factorize ids))) eqn:Hs; [| reflexivity].
    exfalso. now apply Hnc, sorted_codes_contiguous.
Qed.

End Rows.

Lemma interleaved_not_contiguous : ~ contiguous [0; 1; 0]%Z.
Proof.
  intros H. specialize (H 0 1 2 0%Z). simpl in H.
  assert (Habs : Some 1%Z = Some 0%Z) by (apply H; auto; lia).
  discriminate Habs.
Qed.

(** C8, as stated, fails twice.  A frame of a single row is contiguous, yet
    no line is produced for its trajectory: the engine refuses a line of one
    vertex.  And no frame with interleaved rows produces lines that differ
    from the per-trajectory grouping, because none produces lines at all. *)
Lemma one_row_and_interleaved_rows_produce_no_lines :
  (contiguous [7%Z]
   /\ lines_of_today [7%Z] [(10, 50)%Z] = Err (OneVertex 0))
  /\ ~ (exists (ids : list Z) (coords : list (Z * Z)) (ls : list (list (Z * Z))),
          length coords = length ids
          /\ ~ contiguous ids
          /\ lines_of_today ids coords = Ok ls
          /\ ls <> lines_of_the_past ids coords).
Proof.
  split.
  - split; [apply contiguousb_sound; reflexivity | reflexivity].
  - intros [ids [coords [ls [Hlen [Hnc [Hok _]]]]]].
    rewrite (not_sorted_refused (Z * Z) ids coords Hlen Hnc) in Hok. discriminate Hok.
Qed.

(** C8, amended: when the rows of every trajectory are contiguous and every
    trajectory has at least two rows, the lines built from the factorised
    ids are, for each distinct id in order of first appearance, exactly the
    rows of that id in the order of the frame.  When rows of one trajectory
    are interleaved with rows of another, [shapely.linestrings] refuses the
    indices as not sorted and builds nothing. *)
Theorem linestrings_of_factorized_ids :
  (forall (coordinate : Type) (ids : list Z) (coords : list coordinate),
      length coords = length ids -> contiguous ids -> two_rows_each ids ->
      lines_of_today ids coords = Ok (map (rows_of ids coords) (snd (factorize ids)))
      /\ NoDup (snd (factorize ids))
      /\ (forall t, In t (snd (factorize ids)) <-> In t ids))
  /\ (forall (coordinate : Type) (ids : list Z) (coords : list coordinate),
        length coords = length ids -> ~ contiguous ids ->
        lines_of_today ids coords = Err NotSorted).
Proof.
  split.
  - intros coordinate ids coords Hlen Hc Htwo.
    destruct (contiguous_runs ids Hc) as [runs [-> Hnd]].
    split; [apply lines_of_runs; auto using two_rows_runs |].
    unfold factorize. rewrite (factorize_runs runs []) by exact Hnd.
    cbn [snd app]. split; [exact Hnd |].
    intros t. symmetry. apply keys_in_expand.
  - intros coordinate ids coords. apply not_sorted_refused.
Qed.

Lemma linestrings_of_factorized_ids_witness :
  let ids := [0; 0; 3; 3; 3; 6; 6]%Z in
  let coords := [(1, 1); (2, 1); (3, 5); (4, 5); (5, 5); (6, 9); (7, 9)]%Z in
  length coords = length ids
  /\ contiguous ids
  /\ two_rows_each ids
  /\ lines_of_today ids coords
     = Ok [[(1, 1); (2, 1)]; [(3, 5); (4, 5); (5, 5)]; [(6, 9); (7, 9)]]%Z.
Proof.
  intros ids coords.
  assert (Hlen : length coords = length ids) by reflexivity.
  assert (Hc : contiguous ids) by (apply contiguousb_sound; vm_compute; reflexivity).
  assert (Htwo : two_rows_each ids).
  { intros t Ht. simpl in Ht.
    repeat (destruct Ht as [<- | Ht]; [vm_compute; lia |]). contradiction. }
  split; [exact Hlen |]. split; [exact Hc |]. split; [exact Htwo |].
  destruct (proj1 linestrings_of_factorized_ids _ ids coords Hlen Hc Htwo) as [H _].
  rewrite H. vm_compute. reflexivity.
Defined.

(** The interleaved frame 0, 1, 0: what today's cell answers and what the
    group-by computes. *)
Example interleaved_indices_are_refused :
  ~ contiguous [0; 1; 0]%Z
  /\ lines_of_today [0; 1; 0]%Z [(10, 50); (20, 60); (30, 70)]%Z = Err NotSorted
  /\ lines_of_the_past [0; 1; 0]%Z [(10, 50); (20, 60); (30, 70)]%Z
     = [[(10, 50); (30, 70)]; [(20, 60)]]%Z.
Proof.
  split; [exact interleaved_not_contiguous |]. split; vm_compute; reflexivity.
Qed.

(** Cell 45 passes [df.traj_id] itself; after cell 47 multiplied the ids by
    3 that call would miss index 1, which is why cell 49 factorises. *)
Example unfactorized_ids_miss_an_index :
  linestrings [(1, 1); (2, 1); (3, 5); (4, 5)]%Z [0; 0; 3; 3] = Err (MissingIndex 1).
Proof. vm_compute. reflexivity. Qed.

End TrajectoryFacts.

Module ComponentFacts.
Import Arrays ArrayFacts Dissolve.
Local Open Scope list_scope.

Lemma mem_In (x : nat) (l : list nat) : mem x l = true <-> In x l.
Proof.
  unfold mem. rewrite existsb_exists. split.
  - intros [y [Hy He]]. apply Nat.eqb_eq in He. now subst.
  - intros H. exists x. split; [exact H | apply Nat.eqb_refl].
Qed.

Lemma nth_error_indexed_from {A} (l : list A) (a i : nat) :
  nth_error (indexed_from a l) i = option_map (pair (a + i)) (nth_error l i).
Proof.
  unfold indexed_from. revert a i. induction l as [| x l IH]; intros a i.
  - destruct i; reflexivity.
  - destruct i as [| i]; simpl.
    + now rewrite Nat.add_0_r.
    + rewrite IH. now rewrite Nat.add_succ_r.
Qed.

Section Reach.

Variable linked : nat -> nat -> bool.
Variable n : nat.
Hypothesis linked_sym : forall i j, linked i j = linked j i.

Local Abbreviation conn := (connected linked n).
Local Abbreviation frontier := (Dissolve.frontier linked n).
Local Abbreviation closed := (Dissolve.closed linked n).
Local Abbreviation labelled := (Dissolve.labelled linked n).

Lemma connected_trans (i j k : nat) : conn i j -> conn j k -> conn i k.
Proof.
  intros Hij Hjk. induction Hjk as [| y z Hjy IH Hy Hz Hl]; [exact Hij |].
  eapply connected_next; eauto.
Qed.

Lemma connected_sym (i j : nat) : i < n -> conn i j -> conn j i.
Proof.
  intros Hi Hij. induction Hij as [| y z Hiy IH Hy Hz Hl]; [constructor |].
  apply connected_trans with (j := y); [| exact IH].
  apply connected_next with (j := z); [constructor | exact Hz | exact Hy |].
  now rewrite linked_sym.
Qed.

Lemma connected_bound (i j : nat) : i < n -> conn i j -> j < n.
Proof. intros Hi Hij. destruct Hij; assumption. Qed.

Lemma in_frontier (seen : list nat) (k : nat) :
  In k (frontier seen) <->
  k < n /\ ~ In k seen /\ exists j, In j seen /\ linked j k = true.
Proof.
  unfold Dissolve.frontier. rewrite filter_In, in_seq, andb_true_iff, negb_true_iff,
    existsb_exists. split.
  - intros [Hk [Hm He]]. split; [lia |]. split; [| exact He].
    intros Hin. apply mem_In in Hin. congruence.
  - intros [Hk [Hm He]]. split; [lia |]. split; [| exact He].
    destruct (mem k seen) eqn:E; [| reflexivity]. apply mem_In in E. contradiction.
Qed.

Lemma component_step (fuel : nat) (seen : list nat) :
  component linked n (S fuel) seen = component linked n fuel (seen ++ frontier seen).
Proof. reflexivity. Qed.

Lemma component_incl (fuel : nat) (seen : list nat) (x : nat) :
  In x seen -> In x (component linked n fuel seen).
Proof.
  revert seen. induction fuel as [| k IH]; intros seen Hx; [exact Hx |].
  rewrite component_step. apply IH, in_or_app. now left.
Qed.

Lemma component_sound (fuel : nat) (seen : list nat) (x : nat) :
  Forall (fun s => s < n) seen ->
  In x (component linked n fuel seen) -> exists s, In s seen /\ conn s x.
Proof.
  revert seen. induction fuel as [| k IH]; intros seen Hb Hx.
  - exists x. split; [exact Hx | constructor].
  - rewrite component_step in Hx. apply IH in Hx.
    + destruct Hx as [s [Hs Hc]]. apply in_app_or in Hs. destruct Hs as [Hs | Hs].
      * now exists s.
      * apply in_frontier in Hs. destruct Hs as [Hsn [_ [j [Hj Hl]]]].
        exists j. split; [exact Hj |].
        apply connected_trans with (j := s); [| exact Hc].
        apply connected_next with (j := j); auto; [constructor |].
        rewrite Forall_forall in Hb. now apply Hb.
    + apply Forall_app. split; [exact Hb |].
      apply Forall_forall. intros y Hy. now apply in_frontier in Hy.
Qed.

Lemma frontier_nil_closed (seen : list nat) : frontier seen = [] -> closed seen.
Proof.
  intros Hf j k Hj Hjn Hk Hl.
  destruct (in_dec Nat.eq_dec k seen) as [Hin | Hnot]; [exact Hin |].
  exfalso. assert (Hin : In k (frontier seen)) by (apply in_frontier; eauto).
  rewrite Hf in Hin. contradiction.
Qed.

Lemma component_stable (fuel : nat) (seen : list nat) :
  frontier seen = [] -> component linked n fuel seen = seen.
Proof.
  intros Hf. induction fuel as [| k IH]; [reflexivity |].
  now rewrite component_step, Hf, app_nil_r.
Qed.

Lemma nodup_frontier (seen : list nat) : NoDup seen -> NoDup (seen ++ frontier seen).
Proof.
  intros Hnd. apply NoDup_app; [exact Hnd | |].
  - unfold Dissolve.frontier. apply NoDup_filter, seq_NoDup.
  - intros x Hx Hf. apply in_frontier in Hf. tauto.
Qed.

Lemma component_closed (fuel : nat) (seen : list nat) :
  NoDup seen -> Forall (fun x => x < n) seen -> n <= length seen + fuel ->
  closed (component linked n fuel seen).
Proof.
  revert seen. induction fuel as [| k IH]; intros seen Hnd Hb Hlen.
  - simpl. intros j z Hj Hjn Hz Hl.
    assert (Hall : incl (seq 0 n) seen).
    { apply NoDup_length_incl; [exact Hnd | rewrite length_seq; lia |].
      intros x Hx. rewrite Forall_forall in Hb. apply in_seq. specialize (Hb x Hx). lia. }
    apply Hall, in_seq. lia.
  - destruct (frontier seen) as [| f fs] eqn:Hf.
    + rewrite component_stable by exact Hf. now apply frontier_nil_closed.
    + rewrite component_step. apply IH.
      * now apply nodup_frontier.
      * apply Forall_app. split; [exact Hb |].
        apply Forall_forall. intros y Hy. now apply in_frontier in Hy.
      * rewrite Hf, length_app. simpl. lia.
Qed.

Lemma closed_connected (s : list nat) (i x : nat) :
  closed s -> In i s -> i < n -> conn i x -> In x s.
Proof.
  intros Hc Hi Hin Hx. induction Hx as [| y z Hiy IH Hy Hz Hl]; [exact Hi |].
  eapply Hc; eauto.
Qed.

(** The traversal from [v] gathers exactly the nodes joined to [v]. *)
Lemma component_connected (v x : nat) :
  v < n -> (In x (component linked n n [v]) <-> conn v x).
Proof.
  intros Hv. split.
  - intros Hx. apply component_sound in Hx; [| now constructor].
    destruct Hx as [s [[<- | []] Hc]]. exact Hc.
  - intros Hc. apply closed_connected with (i := v); auto.
    + apply component_closed; [repeat constructor; auto | now constructor | simpl; lia].
    + apply component_incl. now left.
Qed.

Lemma length_mark (label : Z) (comp : list nat) (labels : list Z) :
  length (mark label comp labels) = length labels.
Proof.
  unfold mark, indexed, indexed_from.
  now rewrite length_map, length_combine, length_seq, Nat.min_id.
Qed.

Lemma nth_mark (label : Z) (comp : list nat) (labels : list Z) (i : nat) :
  i < length labels ->
  nth i (mark label comp labels) VOID = if mem i comp then label else nth i labels VOID.
Proof.
  intros Hi. apply nth_error_nth. unfold mark, indexed.
  rewrite nth_error_map, nth_error_indexed_from.
  rewrite (nth_error_nth' labels VOID Hi). reflexivity.
Qed.

Lemma labelled_skip (a : nat) (labels : list Z) (next : Z) :
  labelled a labels next -> nth a labels VOID <> VOID -> labelled (S a) labels next.
Proof.
  intros [Hlen Hrange Hdone Hcls] Ha. split; auto.
  intros i Hi Hin. destruct (Nat.eq_dec i a) as [-> | Hne]; [exact Ha |].
  apply Hdone; lia.
Qed.

Lemma labelled_mark (a : nat) (labels : list Z) (next : Z) :
  a < n -> (0 <= next)%Z ->
  labelled a labels next -> nth a labels VOID = VOID ->
  labelled (S a) (mark next (component linked n n [a]) labels) (next + 1).
Proof.
  intros Han Hnext [Hlen Hrange Hdone Hcls] Ha.
  set (comp := component linked n n [a]).
  assert (Hcomp : forall x, mem x comp = true <-> conn a x).
  { intros x. rewrite mem_In. now apply component_connected. }
  assert (Hfresh : forall x, x < n -> conn a x -> nth x labels VOID = VOID).
  { intros x Hx Hc. destruct (Z.eq_dec (nth x labels VOID) VOID) as [E | E]; [exact E |].
    exfalso. pose proof (connected_sym a x Han Hc) as Hxa.
    apply (Hcls x a Hx Han E) in Hxa. congruence. }
  assert (Hnth : forall i, i < n ->
            nth i (mark next comp labels) VOID
            = if mem i comp then next else nth i labels VOID).
  { intros i Hi. apply nth_mark. lia. }
  assert (Hvoid : next <> VOID) by (unfold VOID; lia).
  split.
  - now rewrite length_mark.
  - intros i Hi. rewrite (Hnth i Hi). destruct (mem i comp).
    + right. lia.
    + destruct (Hrange i Hi) as [H | H]; [now left | right; lia].
  - intros i Hi Hin. rewrite (Hnth i Hin). destruct (mem i comp) eqn:E; [exact Hvoid |].
    destruct (Nat.eq_dec i a) as [-> | Hne].
    + exfalso. assert (Hc : mem a comp = true) by (apply Hcomp; constructor). congruence.
    + apply Hdone; lia.
  - intros i j Hi Hj. rewrite (Hnth i Hi), (Hnth j Hj).
    destruct (mem i comp) eqn:Ei; destruct (mem j comp) eqn:Ej; intros Hne.
    + apply Hcomp in Ei, Ej. split; [intros _ | reflexivity].
      apply connected_trans with (j := a); [now apply connected_sym | exact Ej].
    + apply Hcomp in Ei. split.
      * intros Heq. exfalso. destruct (Hrange j Hj) as [H | H]; [congruence | lia].
      * intros Hc. exfalso.
        assert (Hj' : mem j comp = true)
          by (apply Hcomp; now apply connected_trans with (j := i)).
        congruence.
    + apply Hcomp in Ej. split.
      * intros Heq. exfalso. destruct (Hrange i Hi) as [H | H]; [congruence | lia].
      * intros Hc. exfalso.
        assert (Hi' : mem i comp = true).
        { apply Hcomp. apply connected_trans with (j := j); [exact Ej |].
          now apply connected_sym. }
        congruence.
    + now apply Hcls.
Qed.

Lemma label_nodes_labelled (m a : nat) (labels : list Z) (next : Z) :
  a + m = n -> (0 <= next)%Z -> labelled a labels next ->
  labelled n (snd (label_nodes linked n (seq a m) labels next))
             (fst (label_nodes linked n (seq a m) labels next)).
Proof.
  revert a labels next. induction m as [| m IH]; intros a labels next Ham Hnext Hinv.
  - simpl. assert (Ha : a = n) by lia. subst a. exact Hinv.
  - cbn [seq label_nodes]. destruct (Z.eqb_spec (nth a labels VOID) VOID) as [E | E].
    + apply IH; [lia | lia |]. apply labelled_mark; auto; lia.
    + apply IH; [lia | lia |]. now apply labelled_skip.
Qed.

End Reach.

(** The graph routine does what its name says: every node gets a label
    between 0 and the number of components, and two nodes get the same label
    exactly when a chain of edges, taken in either direction, joins them. *)
Theorem labels_are_weak_components (g : csgraph) :
  let linked := fun i j => edge g i j || edge g j i in
  let n_components := fst (weak_components g) in
  let labels := snd (weak_components g) in
  length labels = n_nodes g
  /\ (forall i, i < n_nodes g -> (0 <= nth i labels VOID < n_components)%Z)
  /\ (forall i j, i < n_nodes g -> j < n_nodes g ->
        (nth i labels VOID = nth j labels VOID <-> connected linked (n_nodes g) i j)).
Proof.
  intros linked n_components labels.
  assert (Hinv : Dissolve.labelled linked (n_nodes g) (n_nodes g) labels n_components).
  { apply label_nodes_labelled.
    - intros i j. apply orb_comm.
    - lia.
    - lia.
    - split.
      + apply repeat_length.
      + intros i Hi. left. apply nth_repeat.
      + intros i Hi. lia.
      + intros i j Hi Hj Hne. exfalso. apply Hne. apply nth_repeat. }
  destruct Hinv as [Hlen Hrange Hdone Hcls]. split; [exact Hlen |]. split.
  - intros i Hi. destruct (Hrange i Hi) as [H | H]; [| exact H].
    exfalso. now apply (Hdone i Hi Hi).
  - intros i j Hi Hj. apply Hcls; auto.
Qed.

End ComponentFacts.

(** * The old and the new labelling of overlapping polygons *)

Module DissolveFacts.
Import Arrays ArrayFacts Dissolve.
Local Open Scope list_scope.

Lemma existsb_all_set {A} (f : bool * A -> bool) (l : list A) :
  existsb f (combine (repeat true (length l)) l) = existsb (fun x => f (true, x)) l.
Proof. induction l as [| x l IH]; simpl; congruence. Qed.

Section Graphs.

Variable geometry : Type.
Variable overlaps : geometry -> geometry -> bool.

Lemma in_query_pairs (tree input : list geometry) (i j : nat) :
  In (i, j) (query_pairs overlaps tree input) <->
  exists g t, nth_error input i = Some g /\ nth_error tree j = Some t
              /\ overlaps g t = true.
Proof.
  unfold query_pairs. rewrite in_flat_map. split.
  - intros [[i' g] [Hi Hin]]. apply in_indexed in Hi.
    apply in_flat_map in Hin. destruct Hin as [[j' t] [Hj Hin]].
    apply in_indexed in Hj. destruct (overlaps g t) eqn:Ho; [| contradiction].
    destruct Hin as [H | []]. injection H as -> ->. now exists g, t.
  - intros [g [t [Hi [Hj Ho]]]]. exists (i, g). split; [now apply in_indexed |].
    apply in_flat_map. exists (j, t). split; [now apply in_indexed |].
    rewrite Ho. now left.
Qed.

Lemma coo_entry_connectivity (s : list geometry) (i j : nat) :
  coo_entry (connectivity overlaps s) i j = true <->
  In (i, j) (query_pairs overlaps s s).
Proof.
  unfold coo_entry, connectivity, query_bulk. cbn [data row col].
  rewrite combine_fst_snd, length_map, existsb_all_set, existsb_exists. split.
  - intros [[r k] [Hin H]]. cbn in H.
    apply andb_true_iff in H. destruct H as [Hr Hk].
    apply Nat.eqb_eq in Hr, Hk. now subst.
  - intros Hin. exists (i, j). split; [exact Hin |]. cbn. now rewrite !Nat.eqb_refl.
Qed.

Lemma dense_entry_overlap_rows (s : list geometry) (i j : nat) :
  dense_entry (overlap_rows overlaps s) i j = true <->
  exists x g, nth_error s i = Some x /\ nth_error s j = Some g /\ overlaps g x = true.
Proof.
  unfold dense_entry, overlap_rows, series_overlaps. rewrite nth_error_map.
  destruct (nth_error s i) as [x |]; cbn.
  - rewrite nth_error_map. destruct (nth_error s j) as [g |]; cbn.
    + split; [intros H; now exists x, g |].
      intros [x' [g' [Hx [Hg H]]]]. congruence.
    + split; [discriminate |]. intros [x' [g' [_ [Hg _]]]]. discriminate.
  - split; [discriminate |]. intros [x' [g' [Hx _]]]. discriminate.
Qed.

(** The sparse matrix of cell 130 is the transpose of the dense matrix of
    cell 124. *)
Lemma connectivity_is_transpose (s : list geometry) (i j : nat) :
  coo_entry (connectivity overlaps s) i j = dense_entry (overlap_rows overlaps s) j i.
Proof.
  apply eq_true_iff_eq.
  rewrite coo_entry_connectivity, in_query_pairs, dense_entry_overlap_rows.
  split; intros [a [b [Ha [Hb H]]]]; now exists b, a.
Qed.

End Graphs.

Section Extensionality.

Variables linked linked' : nat -> nat -> bool.
Hypothesis same_links : forall i j, linked i j = linked' i j.
Variable n : nat.

Lemma component_ext (fuel : nat) (seen : list nat) :
  component linked n fuel seen = component linked' n fuel seen.
Proof.
  revert seen. induction fuel as [| k IH]; intros seen; simpl; [reflexivity |].
  rewrite IH. do 2 f_equal. unfold frontier. apply filter_ext. intros j. f_equal.
  induction seen as [| i seen IHs]; simpl; [reflexivity |].
  now rewrite same_links, IHs.
Qed.

Lemma label_nodes_ext (todo : list nat) (labels : list Z) (label : Z) :
  label_nodes linked n todo labels label = label_nodes linked' n todo labels label.
Proof.
  revert labels label. induction todo as [| v rest IH]; intros labels label; simpl;
    [reflexivity |].
  destruct (nth v labels VOID =? VOID)%Z; [| apply IH].
  rewrite component_ext. apply IH.
Qed.

End Extensionality.

Section Labels.

Variable geometry : Type.
Variable overlaps : geometry -> geometry -> bool.

(** On a frame with rows, the old code hands the graph routine a square
    array of two dimensions. *)
Lemma old_components_rows (s : list geometry) :
  s <> [] ->
  old_components overlaps s = Ok (weak_components (from_dense (overlap_rows overlaps s))).
Proof.
  intros Hs. unfold old_components, connected_components, overlap_matrix, apply_values.
  destruct s as [| x s]; [congruence |].
  fold (overlap_rows overlaps (x :: s)). cbn [validate_graph].
  assert (Hsq : forallb (fun r => length r =? length (overlap_rows overlaps (x :: s)))
                        (overlap_rows overlaps (x :: s)) = true).
  { apply forallb_forall. intros r Hr. apply Nat.eqb_eq.
    unfold overlap_rows in *. apply in_map_iff in Hr. destruct Hr as [y [<- _]].
    unfold series_overlaps. now rewrite !length_map. }
  now rewrite Hsq.
Qed.

(** The sparse matrix of the new code is square whatever the frame. *)
Lemma new_components_rows (s : list geometry) :
  new_components overlaps s = Ok (weak_components (from_coo (connectivity overlaps s))).
Proof.
  unfold new_components, connected_components. cbn [validate_graph].
  replace (shape (connectivity overlaps s)) with (length s, length s) by reflexivity.
  cbn [fst snd]. now rewrite Nat.eqb_refl.
Qed.

(** The two graphs get the same labels. *)
Lemma same_weak_components (s : list geometry) :
  weak_components (from_dense (overlap_rows overlaps s))
  = weak_components (from_coo (connectivity overlaps s)).
Proof.
  unfold weak_components. cbn [n_nodes edge from_dense from_coo].
  replace (fst (shape (connectivity overlaps s))) with (length s) by reflexivity.
  replace (length (overlap_rows overlaps s)) with (length s)
    by (unfold overlap_rows; now rewrite length_map).
  apply label_nodes_ext. intros i j.
  rewrite !connectivity_is_transpose. apply orb_comm.
Qed.

End Labels.




(** The four squares of cell 121: three overlap in a chain and merge, the
    fourth stays alone. *)
Example squares_components :
  old_components box_overlaps squares = Ok (2, [0; 0; 0; 1])%Z
  /\ new_components box_overlaps squares = Ok (2, [0; 0; 0; 1])%Z.
Proof. split; vm_compute; reflexivity. Qed.

End DissolveFacts.

(** * Facts about running the cells in order *)

Module DataflowFacts.
Import Dataflow.
Local Open Scope list_scope.

Lemma mem_iff (x : string) (l : list string) : mem x l = true <-> In x l.
Proof.
  unfold mem. rewrite existsb_exists. split.
  - intros [y [Hy He]]. apply String.eqb_eq in He. now subst.
  - intros H. exists x. split; [exact H | apply String.eqb_refl].
Qed.

Lemma mem_false (x : string) (l : list string) : mem x l = false <-> ~ In x l.
Proof.
  rewrite <- mem_iff. destruct (mem x l); split; congruence.
Qed.

Lemma lacking_none (state l : list string) :
  lacking state l = None <-> (forall x, In x l -> In x state).
Proof.
  unfold lacking. split.
  - intros H x Hx. pose proof (find_none _ _ H x Hx) as Hn.
    apply negb_false_iff in Hn. now apply mem_iff.
  - intros H. destruct (find _ l) eqn:E; [|reflexivity].
    apply find_some in E as [Hi Hn]. apply negb_true_iff in Hn.
    apply mem_false in Hn. exfalso. auto.
Qed.

Lemma lacking_some (state l : list string) (x : string) :
  lacking state l = Some x -> In x l /\ ~ In x state.
Proof.
  unfold lacking. intros H. apply find_some in H as [Hi Hn].
  apply negb_true_iff in Hn. apply mem_false in Hn. auto.
Qed.

Lemma in_needs_cons (s : step) (r : list step) (x : string) :
  In x (needs (s :: r)) <-> In x (uses s) \/ (In x (needs r) /\ ~ In x (defines s)).
Proof.
  cbn [needs]. rewrite in_app_iff, filter_In, negb_true_iff, mem_false. tauto.
Qed.

(** A run that finishes has added what its steps provide. *)
Lemma run_finished (steps : list step) :
  forall state final, run state steps = Finished final -> final = provides steps ++ state.
Proof.
  induction steps as [|s r IH]; intros state final H; cbn in *.
  - congruence.
  - destruct (lacking state (uses s)); [discriminate|].
    apply IH in H. now rewrite <- app_assoc.
Qed.

(** A run finishes exactly when its initial state holds what its steps need. *)
Lemma run_finishes (steps : list step) :
  forall state,
    (forall x, In x (needs steps) -> In x state)
    <-> run state steps = Finished (provides steps ++ state).
Proof.
  induction steps as [|s r IH]; intros state.
  - cbn. tauto.
  - cbn [run provides]. split.
    + intros H. assert (Hl : lacking state (uses s) = None).
      { apply lacking_none. intros x Hx. apply H, in_needs_cons. auto. }
      rewrite Hl, <- app_assoc. apply IH. intros x Hx.
      apply in_app_iff. destruct (mem x (defines s)) eqn:E.
      * left. now apply mem_iff.
      * right. apply H, in_needs_cons. right. split; [exact Hx | now apply mem_false].
    + intros H x Hx. destruct (lacking state (uses s)) eqn:Hl; [discriminate|].
      apply in_needs_cons in Hx as [Hx | [Hx Hd]].
      * now apply (proj1 (lacking_none _ _) Hl).
      * rewrite <- app_assoc in H. pose proof (proj2 (IH _) H x Hx) as Hi.
        apply in_app_iff in Hi as [Hi|Hi]; [contradiction | exact Hi].
Qed.

(** A run that stops, stops at an item its steps need and its initial
    state lacks. *)
Lemma run_missing (steps : list step) :
  forall state x, run state steps = Missing x -> In x (needs steps) /\ ~ In x state.
Proof.
  induction steps as [|s r IH]; intros state x H.
  - discriminate.
  - cbn [run] in H. destruct (lacking state (uses s)) eqn:Hl.
    + injection H as ->. apply lacking_some in Hl as [Hi Hn].
      split; [apply in_needs_cons; auto | exact Hn].
    + apply IH in H as [Hi Hn]. split.
      * apply in_needs_cons. right. split; [exact Hi|].
        intros Hd. apply Hn, in_app_iff. auto.
      * intros Hs. apply Hn, in_app_iff. auto.
Qed.

Lemma run_app (a b : list step) :
  forall state,
    run state (a ++ b)
    = match run state a with Finished s => run s b | Missing x => Missing x end.
Proof.
  induction a as [|s r IH]; intros state; cbn.
  - reflexivity.
  - destruct (lacking state (uses s)); [reflexivity | apply IH].
Qed.

(** Steps that define nothing leave the state as it is, if they finish. *)
Lemma run_quiet (a : list step) :
  forallb quiet a = true ->
  forall state, run state a = Finished state \/ exists x, run state a = Missing x.
Proof.
  induction a as [|s r IH]; intros Hq state; cbn in *.
  - now left.
  - apply andb_true_iff in Hq as [Hs Hr].
    destruct (lacking state (uses s)); [right; eauto|].
    unfold quiet in Hs. destruct (defines s); [|discriminate]. now apply IH.
Qed.

(** Running quiet steps over again is running them once. *)
Lemma run_repeat (a : list step) (n : nat) :
  forallb quiet a = true ->
  forall state b,
    run state (concat (repeat a (S n)) ++ b) = run state (a ++ b).
Proof.
  intros Hq. induction n as [|n IH]; intros state b.
  - cbn. now rewrite app_nil_r.
  - change (repeat a (S (S n))) with (a :: repeat a (S n)).
    cbn [concat]. rewrite <- app_assoc, run_app, (run_app a b).
    destruct (run_quiet a Hq state) as [H | [x H]]; rewrite H.
    + rewrite IH, run_app, H. reflexivity.
    + reflexivity.
Qed.

Lemma same_items_In (l m : list string) :
  same_items l m = true -> forall x, In x l <-> In x m.
Proof.
  unfold same_items. intros H x. apply andb_true_iff in H as [H1 H2].
  rewrite forallb_forall in H1, H2.
  split; intros Hx; apply mem_iff; auto.
Qed.

Lemma run_finishes_with (steps : list step) (required : list string) :
  same_items (needs steps) required = true ->
  forall state,
    (forall x, In x required -> In x state)
    <-> run state steps = Finished (provides steps ++ state).
Proof.
  intros Hs state. rewrite <- run_finishes.
  pose proof (same_items_In _ _ Hs) as E.
  split; intros H x Hx; apply H, E, Hx.
Qed.

End DataflowFacts.

Module RunFacts.
Import Py Notebook Dataflow Names Files Timing DataflowFacts.
Local Open Scope list_scope.

Lemma flat_map_flat_map {A B C : Type} (f : B -> list C) (g : A -> list B) (l : list A) :
  flat_map f (flat_map g l) = flat_map (fun x => flat_map f (g x)) l.
Proof.
  induction l as [|a l IH]; cbn; [reflexivity|].
  now rewrite flat_map_app, IH.
Qed.

(** The file steps are those of the reads and writes of [cell_io]. *)
Lemma file_steps_cell_io (cs : list cell) :
  file_steps cs = map io_step (flat_map cell_io cs).
Proof.
  unfold file_steps. induction cs as [|c cs IH]; [reflexivity|].
  cbn [flat_map]. rewrite flat_map_app, map_app, IH. f_equal.
  unfold cell_io, cell_nodes, cell_statements, stmt_file_steps, stmt_io.
  induction (body c) as [|s r IHr]; [reflexivity|].
  cbn [flat_map]. rewrite !flat_map_app, map_app, IHr. reflexivity.
Qed.

(** A [%timeit] line binds no name in the kernel. *)
Lemma timeit_binds_nothing (s : stmt) :
  is_timeit s = true -> forallb quiet (steps_of s) = true.
Proof.
  destruct s; cbn [is_timeit]; try discriminate. intros H.
  cbn [steps_of]. rewrite H. apply forallb_forall.
  intros st Hst. apply in_map_iff in Hst as [st' [<- _]]. reflexivity.
Qed.

Lemma run_timed (steps_of : stmt -> list step) (n : nat) (ss : list stmt) :
  1 <= n ->
  (forall s, In s ss -> is_timeit s = true -> forallb quiet (steps_of s) = true) ->
  forall state,
    run state (flat_map (repeated steps_of n) ss) = run state (flat_map steps_of ss).
Proof.
  intros Hn. induction ss as [|s r IH]; intros Hq state; [reflexivity|].
  cbn [flat_map]. unfold repeated at 1. destruct (is_timeit s) eqn:E.
  - destruct n as [|n]; [lia|].
    rewrite run_repeat by (apply Hq; [now left | exact E]).
    rewrite !run_app. destruct (run state (steps_of s)); [|reflexivity].
    apply IH. intros s' Hs'. apply Hq. now right.
  - rewrite !run_app. destruct (run state (steps_of s)); [|reflexivity].
    apply IH. intros s' Hs'. apply Hq. now right.
Qed.

(** X1: run in order in a kernel that holds Python's built-in names, the
    cells of the workshop notebook find every name they read: each is
    imported, assigned or defined by an earlier statement, or is one of the
    built-ins [map], [zip], [float], [str], [dict], [print], [len] and
    [bool].  In a kernel that lacks one of these eight the run stops, at a
    name among the eight.  The cells of the environment check read no name
    they have not imported. *)
Theorem cells_in_order_find_their_names :
  (forall kernel,
      (forall x, In x builtins -> In x kernel)
      <-> run kernel (name_steps GeoPython2023.notebook)
          = Finished (provides (name_steps GeoPython2023.notebook) ++ kernel))
  /\ (forall kernel x,
         run kernel (name_steps GeoPython2023.notebook) = Missing x ->
         In x builtins /\ ~ In x kernel)
  /\ (forall kernel,
         run kernel (name_steps Environment.notebook)
         = Finished (provides (name_steps Environment.notebook) ++ kernel)).
Proof.
  assert (Hs : same_items (needs (name_steps GeoPython2023.notebook)) builtins = true)
    by (vm_compute; reflexivity).
  split; [|split].
  - apply run_finishes_with, Hs.
  - intros kernel x H. apply run_missing in H as [Hi Hn].
    split; [exact (proj1 (same_items_In _ _ Hs x) Hi) | exact Hn].
  - intros kernel. apply run_finishes.
    assert (E : needs (name_steps Environment.notebook) = []) by (vm_compute; reflexivity).
    rewrite E. intros x [].
Qed.

(** X2: run in order, the cells of both notebooks find every file they
    read exactly when the disk holds [data/sales.csv],
    [data/sales.parquet], [data/sales.geojson] and
    [data/food_establishments.gpkg]; the run then leaves
    [data/sales.gpkg] and [data/sales_geo.parquet] beside what the disk
    held.  The two files cell 60 writes are read by later cells only:
    with cell 60 left out, the disk must hold these two as well. *)
Theorem cells_in_order_find_their_files :
  (forall disk,
      (forall p, In p shipped -> In p disk)
      <-> run disk (file_steps cells)
          = Finished ("data/sales_geo.parquet" :: "data/sales.gpkg" :: disk))
  /\ (forall disk,
         (forall p, In p ("data/sales.gpkg" :: "data/sales_geo.parquet" :: shipped) ->
                    In p disk)
         <-> run disk (file_steps (filter (fun c => negb (position c =? 60)) cells))
             = Finished disk).
Proof.
  split; intros disk.
  - assert (Hs : same_items (needs (file_steps cells)) shipped = true)
      by (vm_compute; reflexivity).
    assert (Hp : provides (file_steps cells)
                 = ["data/sales_geo.parquet"; "data/sales.gpkg"])
      by (vm_compute; reflexivity).
    pose proof (run_finishes_with _ _ Hs disk) as H.
    rewrite Hp in H. exact H.
  - set (rest := file_steps (filter (fun c => negb (position c =? 60)) cells)).
    assert (Hs : same_items (needs rest)
                   ("data/sales.gpkg" :: "data/sales_geo.parquet" :: shipped) = true)
      by (vm_compute; reflexivity).
    assert (Hp : provides rest = []) by (vm_compute; reflexivity).
    pose proof (run_finishes_with _ _ Hs disk) as H.
    rewrite Hp in H. exact H.
Qed.

(** X4: however many times a [%timeit] line runs its statement, once at
    least, the notebook's run ends as if each had run once: with the same
    names bound and the same files on disk, or stopped at the same missing
    name or file.  No [%timeit] line of the notebook binds a name or writes
    a file. *)
Theorem timeit_repetitions_change_nothing (n : nat) :
  1 <= n ->
  (forall kernel,
      run kernel (flat_map (repeated steps_of n) (flat_map body GeoPython2023.notebook))
      = run kernel (name_steps GeoPython2023.notebook))
  /\ (forall disk,
         run disk (flat_map (repeated stmt_file_steps n) (flat_map body GeoPython2023.notebook))
         = run disk (file_steps GeoPython2023.notebook)).
Proof.
  intros Hn. split; intros state.
  - apply run_timed; [exact Hn|]. intros s _. apply timeit_binds_nothing.
  - apply run_timed; [exact Hn|].
    assert (H : forallb (fun s => implb (is_timeit s) (forallb quiet (stmt_file_steps s)))
                  (flat_map body GeoPython2023.notebook) = true)
      by (vm_compute; reflexivity).
    rewrite forallb_forall in H. intros s Hs E.
    specialize (H s Hs). rewrite E in H. exact H.
Qed.

Lemma timeit_repetitions_change_nothing_seven :
  (forall kernel,
      run kernel (flat_map (repeated steps_of 7) (flat_map body GeoPython2023.notebook))
      = run kernel (name_steps GeoPython2023.notebook))
  /\ (forall disk,
         run disk (flat_map (repeated stmt_file_steps 7) (flat_map body GeoPython2023.notebook))
         = run disk (file_steps GeoPython2023.notebook)).
Proof.
  apply (timeit_repetitions_change_nothing 7). lia.
Defined.

(** X3: each section of the workshop notebook can be run right after the
    import cell, in a kernel and on a disk that hold what the section takes
    from outside, and only then: "Coordinate operations" and "Specify
    coordinate reference system" need the frame [gdf] that "Data creation"
    leaves, and "Distance operations" needs the file [data/sales.gpkg],
    which cell 60 of "Reading/writing" writes; the other names are
    built-ins of Python and the other files are files of the repository. *)
Theorem sections_run_after_the_imports (s : section_of_cells) :
  In s sections ->
  (forall kernel,
      (forall x, In x (names_from_outside s) -> In x kernel)
      <-> run kernel (name_steps (after_imports s))
          = Finished (provides (name_steps (after_imports s)) ++ kernel))
  /\ (forall disk,
         (forall p, In p (files_from_outside s) -> In p disk)
         <-> run disk (file_steps (after_imports s))
             = Finished (provides (file_steps (after_imports s)) ++ disk)).
Proof.
  intros Hs.
  assert (Hall : forallb (fun s =>
              same_items (needs (name_steps (after_imports s))) (names_from_outside s)
              && same_items (needs (file_steps (after_imports s))) (files_from_outside s))
            sections = true) by (vm_compute; reflexivity).
  rewrite forallb_forall in Hall. specialize (Hall s Hs).
  apply andb_true_iff in Hall. destruct Hall as [Hn Hf].
  split; intros state; now apply run_finishes_with.
Qed.

Lemma sections_run_after_the_imports_distance :
  In distance_operations sections
  /\ (forall kernel,
        (forall x, In x ["print"; "len"] -> In x kernel)
        <-> run kernel (name_steps (after_imports distance_operations))
            = Finished (provides (name_steps (after_imports distance_operations))
                        ++ kernel))
  /\ (forall disk,
        (forall p, In p ["data/sales.gpkg"; "data/food_establishments.gpkg"] ->
                   In p disk)
        <-> run disk (file_steps (after_imports distance_operations))
            = Finished (provides (file_steps (after_imports distance_operations))
                        ++ disk)).
Proof.
  assert (Hs : In distance_operations sections) by (cbv; intuition).
  split; [exact Hs |].
  exact (sections_run_after_the_imports distance_operations Hs).
Defined.

End RunFacts.
(** * Groups and lines *)

Module RelabellingFacts.
Import Arrays Trajectories Dissolve Relabelling.
Local Open Scope list_scope.

Lemma connected_same_links (linked linked' : nat -> nat -> bool) (n i j : nat) :
  (forall a b, linked a b = linked' a b) ->
  connected linked n i j -> connected linked' n i j.
Proof.
  intros Hl H. induction H as [| y z Hy IH Hyn Hzn Hlink]; [constructor |].
  apply connected_next with (j := y); auto. now rewrite <- Hl.
Qed.

Lemma links_of_connectivity {geometry : Type} (overlaps : geometry -> geometry -> bool)
    (s : list geometry) (i j : nat) :
  edge (from_coo (connectivity overlaps s)) i j
  || edge (from_coo (connectivity overlaps s)) j i
  = rows_overlap overlaps s i j.
Proof.
  cbn [edge from_coo]. unfold rows_overlap. apply eq_true_iff_eq.
  rewrite orb_true_iff, !DissolveFacts.coo_entry_connectivity,
    !DissolveFacts.in_query_pairs.
  destruct (nth_error s i) as [a |], (nth_error s j) as [b |].
  - rewrite orb_true_iff. split.
    + intros [[g [t [Hg [Ht H]]]] | [g [t [Hg [Ht H]]]]];
        injection Hg as <-; injection Ht as <-; auto.
    + intros [H | H]; [left | right]; eauto.
  - split; [| discriminate]. intros [[g [t [_ [Ht _]]]] | [g [t [Hg _]]]]; discriminate.
  - split; [| discriminate]. intros [[g [t [Hg _]]] | [g [t [_ [Ht _]]]]]; discriminate.
  - split; [| discriminate]. intros [[g [t [Hg _]]] | [g [t [Hg _]]]]; discriminate.
Qed.


(** ** Multiplying the ids by three *)

Section Width.

Local Open Scope Z_scope.

Variable width : Z.
Hypothesis width_pos : 0 < width.

Lemma wrap_fits (x : Z) : fits width (wrap width x).
Proof.
  unfold fits, wrap.
  assert (Hp : 2 ^ width = 2 * 2 ^ (width - 1)).
  { replace width with (Z.succ (width - 1)) at 1 by lia. apply Z.pow_succ_r. lia. }
  assert (Hpos : 0 < 2 ^ (width - 1)) by (apply Z.pow_pos_nonneg; lia).
  pose proof (Z.mod_pos_bound (x + 2 ^ (width - 1)) (2 ^ width)) as Hb. lia.
Qed.

(** Three is odd: multiplying by it loses nothing, even when it wraps. *)
Lemma triple_injective (a b : Z) :
  fits width a -> fits width b ->
  wrap width (a * 3) = wrap width (b * 3) -> a = b.
Proof.
  unfold fits, wrap. intros Ha Hb H.
  assert (Hp : 2 ^ width = 2 * 2 ^ (width - 1)).
  { replace width with (Z.succ (width - 1)) at 1 by lia. apply Z.pow_succ_r. lia. }
  assert (Hpos : 0 < 2 ^ (width - 1)) by (apply Z.pow_pos_nonneg; lia).
  assert (Hm : (a * 3 + 2 ^ (width - 1)) mod 2 ^ width
               = (b * 3 + 2 ^ (width - 1)) mod 2 ^ width) by lia.
  assert (Hd : (2 ^ width | 3 * (a - b))).
  { apply Z.mod_divide; [lia |].
    replace (3 * (a - b))
      with ((a * 3 + 2 ^ (width - 1)) - (b * 3 + 2 ^ (width - 1))) by ring.
    rewrite Zminus_mod, Hm, Z.sub_diag. apply Z.mod_0_l. lia. }
  assert (Hrel : Z.gcd (2 ^ width) 3 = 1).
  { apply Z.coprime_pow_l; [lia | reflexivity]. }
  destruct (Z.gauss _ _ _ Hd Hrel) as [q Hq].
  assert (q = 0) by nia. lia.
Qed.

Lemma index_of_tripled (x : Z) (u : list Z) :
  fits width x -> Forall (fits width) u ->
  index_of (wrap width (x * 3)) (tripled width u) = index_of x u.
Proof.
  intros Hx Hu. induction Hu as [| y u Hy Hu IH]; [reflexivity |].
  cbn [tripled map index_of]. fold (tripled width u). rewrite IH.
  destruct (Z.eqb_spec x y) as [-> | Hne].
  - now rewrite Z.eqb_refl.
  - destruct (Z.eqb_spec (wrap width (x * 3)) (wrap width (y * 3))) as [He | _];
      [| reflexivity].
    exfalso. apply Hne. now apply triple_injective.
Qed.

Lemma factorize_from_tripled (values u : list Z) :
  Forall (fits width) values -> Forall (fits width) u ->
  factorize_from (tripled width u) (tripled width values)
  = (fst (factorize_from u values), tripled width (snd (factorize_from u values))).
Proof.
  intros Hv. revert u. induction Hv as [| x r Hx Hr IH]; intros u Hu; [reflexivity |].
  cbn [tripled map factorize_from]. fold (tripled width r) (tripled width u).
  rewrite (index_of_tripled x u Hx Hu).
  destruct (index_of x u) as [i |].
  - rewrite (IH u Hu). now destruct (factorize_from u r).
  - assert (Hu' : Forall (fits width) (u ++ [x]))
      by (apply Forall_app; split; [exact Hu | now constructor]).
    replace (tripled width u ++ [wrap width (x * 3)]) with (tripled width (u ++ [x]))
      by (unfold tripled; now rewrite map_app).
    assert (Hlen : length (tripled width u) = length u)
      by (unfold tripled; apply length_map).
    rewrite (IH (u ++ [x]) Hu'), Hlen.
    now destruct (factorize_from (u ++ [x]) r).
Qed.

Lemma tripled_fits (ids : list Z) : Forall (fits width) (tripled width ids).
Proof.
  unfold tripled. apply Forall_forall. intros y Hy.
  apply in_map_iff in Hy. destruct Hy as [x [<- _]]. apply wrap_fits.
Qed.

Lemma iter_tripled_fits (k : nat) (ids : list Z) :
  Forall (fits width) ids -> Forall (fits width) (Nat.iter k (tripled width) ids).
Proof.
  intros H. destruct k as [| k]; [exact H |]. rewrite Nat.iter_succ. apply tripled_fits.
Qed.

Lemma factorize_iter_tripled (k : nat) (ids : list Z) :
  Forall (fits width) ids ->
  factorize (Nat.iter k (tripled width) ids)
  = (fst (factorize ids), Nat.iter k (tripled width) (snd (factorize ids))).
Proof.
  intros H. induction k as [| k IH]; [simpl; now destruct (factorize ids) |].
  rewrite !Nat.iter_succ. unfold factorize in *.
  change (@nil Z) with (tripled width []) at 1.
  rewrite factorize_from_tripled; [| now apply iter_tripled_fits | constructor].
  now rewrite IH.
Qed.

End Width.

(** X6: however many times cell 47 has multiplied the trajectory ids by three,
    in integers of any width, cells 49 and 53 build the same lines as
    before it: [pandas.factorize] gives the same codes, so
    [shapely.linestrings] gets the same indices, and the second array of
    [factorize], which cell 53 uses as the index of the frame, holds the
    ids as multiplied. *)
Theorem factorized_lines_survive_tripling
    (coordinate : Type) (width : Z) (k : nat) (ids : list Z) (coords : list coordinate) :
  (0 < width)%Z -> Forall (fits width) ids ->
  fst (factorize (Nat.iter k (tripled width) ids)) = fst (factorize ids)
  /\ snd (factorize (Nat.iter k (tripled width) ids))
     = Nat.iter k (tripled width) (snd (factorize ids))
  /\ lines_of_today (Nat.iter k (tripled width) ids) coords = lines_of_today ids coords.
Proof.
  intros Hw Hids. unfold lines_of_today.
  rewrite (factorize_iter_tripled width Hw k ids Hids). cbn [fst snd]. auto.
Qed.

Lemma factorized_lines_survive_tripling_bytes :
  (0 < 8)%Z /\ Forall (fits 8) [0; 0; 50; 50; 100; 100]%Z
  /\ fst (factorize (Nat.iter 2 (tripled 8) [0; 0; 50; 50; 100; 100]%Z))
     = fst (factorize [0; 0; 50; 50; 100; 100]%Z)
  /\ snd (factorize (Nat.iter 2 (tripled 8) [0; 0; 50; 50; 100; 100]%Z))
     = Nat.iter 2 (tripled 8) (snd (factorize [0; 0; 50; 50; 100; 100]%Z))
  /\ lines_of_today (Nat.iter 2 (tripled 8) [0; 0; 50; 50; 100; 100]%Z)
                    [1; 2; 3; 4; 5; 6]
     = lines_of_today [0; 0; 50; 50; 100; 100]%Z [1; 2; 3; 4; 5; 6].
Proof.
  assert (Hw : (0 < 8)%Z) by lia.
  assert (Hids : Forall (fits 8) [0; 0; 50; 50; 100; 100]%Z)
    by (repeat constructor; vm_compute; intuition discriminate).
  split; [exact Hw |]. split; [exact Hids |].
  exact (factorized_lines_survive_tripling nat 8 2 _ [1; 2; 3; 4; 5; 6] Hw Hids).
Defined.

(** In bytes, twice three times 50 wraps to -62 and twice three times 100
    to -124: the ids change, the codes do not. *)
Example tripled_twice_in_bytes :
  Nat.iter 2 (tripled 8) [0; 0; 50; 50; 100; 100]%Z = [0; 0; -62; -62; -124; -124]%Z
  /\ factorize [0; 0; -62; -62; -124; -124]%Z = ([0; 0; 1; 1; 2; 2], [0; -62; -124]%Z).
Proof. split; vm_compute; reflexivity. Qed.

End RelabellingFacts.

